(** * BiteBot: session reconciliation layer

    A shallow embedding of [app.py] (the Flask handlers) and of
    [src/agent.py] ([run_agent] and [_serialize_message]), with the
    properties of the specification stated and proved over it.

    Conventions of the embedding.
    - A Python [str] is a [string]; every character is a code point below
      256.  Message contents are strings (LangChain also allows block
      lists, which are outside this model).
    - A Python [dict] with a fixed set of keys is a record; a [dict] used
      as a map is a [gmap string _]; [None] is [option]'s [None].
    - The two regular expressions of the program are written in a small
      abstract syntax and run by a backtracking matcher that tries the
      alternatives in the order of Python's [re] module.
    - Exceptions are values of type [exn]; code that can raise lives in a
      state-and-exception monad over the request-time state of Flask. *)

From Stdlib Require Import Ascii.
From stdpp Require Import gmap strings list fin_maps.

(** ** Strings *)

Module Str.

(** [s[n:]] *)
Fixpoint drop (n : nat) (s : string) : string :=
  match n, s with
  | O, _ => s
  | S _, EmptyString => EmptyString
  | S k, String _ s' => drop k s'
  end.

(** [s[:n]] *)
Fixpoint take (n : nat) (s : string) : string :=
  match n, s with
  | O, _ => EmptyString
  | S _, EmptyString => EmptyString
  | S k, String a s' => String a (take k s')
  end.

(** Truth value of a string: [bool(s)]. *)
Definition nonempty (s : string) : bool :=
  match s with
  | EmptyString => false
  | String _ _ => true
  end.

(** [str.isspace] on one code point below 256: the ASCII controls
    9-13 and 28-31, the space, NEL (133) and the no-break space (160). *)
Definition isspace (a : ascii) : bool :=
  let n := nat_of_ascii a in
  ((9 <=? n) && (n <=? 13)) || ((28 <=? n) && (n <=? 32))
  || (n =? 133) || (n =? 160).

Fixpoint lstrip (s : string) : string :=
  match s with
  | EmptyString => EmptyString
  | String a s' => if isspace a then lstrip s' else s
  end.

(** Strips the white space at the end: a character is kept when it is
    not white space or when something is kept after it. *)
Fixpoint rstrip (s : string) : string :=
  match s with
  | EmptyString => EmptyString
  | String a s' =>
      match rstrip s' with
      | EmptyString => if isspace a then EmptyString else String a EmptyString
      | r => String a r
      end
  end.

(** [s.strip()] *)
Definition strip (s : string) : string := rstrip (lstrip s).

End Str.

(** ** Regular expressions

    The fragment of [re] the program uses: a sequence of items, each a
    single character class, a greedy or lazy star of a character class, or
    a bracket of capture group 1. *)

Module Re.

Inductive cclass : Type :=
| Chr (a : ascii)   (* a literal character *)
| Dot.              (* [.]: any character but the newline *)

Inductive item : Type :=
| One (c : cclass)
| Star (c : cclass)      (* [c*], greedy *)
| StarLazy (c : cclass)  (* [c*?] *)
| GroupOpen
| GroupClose.

Definition regex : Type := list item.

Definition newline : ascii := ascii_of_nat 10.

Definition accepts (c : cclass) (a : ascii) : bool :=
  match c with
  | Chr b => bool_decide (a = b)
  | Dot => bool_decide (a ≠ newline)
  end.

(** A literal string as a regular expression. *)
Fixpoint lit (s : string) : regex :=
  match s with
  | EmptyString => []
  | String a s' => One (Chr a) :: lit s'
  end.

(** Capture registers of group 1: where it opened and where it closed. *)
Definition regs : Type := (option nat * option nat)%type.

(** [run r s pos g]: match [r] at the head of [s], which sits at offset
    [pos] of the subject.  Returns the offset where the match ends and
    the registers.  A greedy star takes as many characters as it can and
    gives them back one at a time; a lazy star takes as few as it can. *)
Fixpoint run (r : regex) (s : string) (pos : nat) (g : regs)
  : option (nat * regs) :=
  match r with
  | [] => Some (pos, g)
  | One c :: r' =>
      match s with
      | String a s' => if accepts c a then run r' s' (S pos) g else None
      | EmptyString => None
      end
  | GroupOpen :: r' => run r' s pos (Some pos, g.2)
  | GroupClose :: r' => run r' s pos (g.1, Some pos)
  | Star c :: r' =>
      (fix greedy (s : string) (pos : nat) : option (nat * regs) :=
         match s with
         | String a s' =>
             if accepts c a then
               match greedy s' (S pos) with
               | Some m => Some m
               | None => run r' s pos g
               end
             else run r' s pos g
         | EmptyString => run r' s pos g
         end) s pos
  | StarLazy c :: r' =>
      (fix lazy (s : string) (pos : nat) : option (nat * regs) :=
         match run r' s pos g with
         | Some m => Some m
         | None =>
             match s with
             | String a s' => if accepts c a then lazy s' (S pos) else None
             | EmptyString => None
             end
         end) s pos
  end.

(** [pattern.match(s)]: the number of characters matched at the head of
    [s], and the span of group 1 when it took part. *)
Definition match_ (r : regex) (s : string) : option (nat * regs) :=
  run r s 0 (None, None).

Definition match_len (r : regex) (s : string) : option nat :=
  fst <$> match_ r s.

(** [m.group(1)] of a match found at the head of [s]. *)
Definition group1 (s : string) (m : nat * regs) : option string :=
  match m.2 with
  | (Some b, Some e) => Some (Str.take (e - b) (Str.drop b s))
  | _ => None
  end.

(** [re.search(r, s)]: the first start position, from the left, where
    [r] matches; the end of the subject is tried last. *)
Fixpoint search (r : regex) (s : string) : option (string * (nat * regs)) :=
  match match_ r s with
  | Some m => Some (s, m)
  | None =>
      match s with
      | String _ s' => search r s'
      | EmptyString => None
      end
  end.

(** [re.search(r, s).group(1)], [None] when there is no match. *)
Definition search_group1 (r : regex) (s : string) : option string :=
  match search r s with
  | Some (suffix, m) => group1 suffix m
  | None => None
  end.

Definition test (r : regex) (s : string) : bool :=
  match search r s with Some _ => true | None => false end.

(** [re.sub(r, '', s)]: scan from the left; where [r] matches a
    non-empty span the span is removed and the scan resumes after it,
    elsewhere the character is copied.  (An empty match is replaced by
    the empty string, which copies the character too.)  [skip] counts
    the characters of the current match still to be dropped. *)
Fixpoint remove_from (r : regex) (skip : nat) (s : string) : string :=
  match s with
  | EmptyString => EmptyString
  | String a s' =>
      match skip with
      | S k => remove_from r k s'
      | O =>
          match match_len r s with
          | Some (S n) => remove_from r n s'
          | _ => String a (remove_from r 0 s')
          end
      end
  end.

Definition remove_all (r : regex) (s : string) : string := remove_from r 0 s.

End Re.

(** ** The two patterns of the program *)

Definition sentinel_prefix : string :=
  "IMPORTANT: This reservation data includes: ".

(** [r'IMPORTANT: This reservation data includes: ({.*})'] of [run_agent]. *)
Definition reservation_pattern : Re.regex :=
  Re.lit sentinel_prefix
  ++ [Re.GroupOpen; Re.One (Re.Chr "{"); Re.Star Re.Dot; Re.One (Re.Chr "}");
      Re.GroupClose].

(** [r'\n*IMPORTANT: This reservation data includes: {.*?}\n*'] of [chat]. *)
Definition scrub_pattern : Re.regex :=
  [Re.Star (Re.Chr Re.newline)]
  ++ Re.lit sentinel_prefix
  ++ [Re.One (Re.Chr "{"); Re.StarLazy Re.Dot; Re.One (Re.Chr "}");
      Re.Star (Re.Chr Re.newline)].

(** [re.sub(r'\n*IMPORTANT: ...{.*?}\n*', '', assistant_message)] *)
Definition scrub (assistant_message : string) : string :=
  Re.remove_all scrub_pattern assistant_message.

(** The reply contains a sentinel: the scrub pattern matches somewhere. *)
Definition has_sentinel (s : string) : bool := Re.test scrub_pattern s.

(** ** Python values and exceptions *)

Inductive exn : Type :=
| JSONDecodeError   (* [json.loads] on malformed text *)
| SubscriptError    (* [KeyError] or [TypeError] of [v['reservation_id']] *)
| AgentError.       (* whatever [agent.invoke] raises *)

Definition is_JSONDecodeError (e : exn) : bool :=
  match e with JSONDecodeError => true | _ => false end.

(** What the program needs of Python's values and of the [json] module:
    the values [json.loads] returns, [json.loads] itself ([None] when it
    raises [json.JSONDecodeError]), the subscript [v[key]] by a string
    key ([None] when it raises, [KeyError] on a dict without the key and
    [TypeError] on a value that is not a dict), and [==]. *)
Class PyJSON : Type := {
  pyval : Type;
  json_loads : string → option pyval;
  getitem : pyval → string → option pyval;
  py_eq : pyval → pyval → bool;
}.

(** ** Messages *)

(** A message of the session transcript: a plain dict with the keys
    ['role'] and ['content'], and for tool messages ['name'] and
    ['tool_call_id']. *)
Record Message : Type := {
  role : string;
  content : string;
  name : option string;
  tool_call_id : option string;
}.

(** The message objects of the agent framework, by class name.
    [OtherMessage] stands for every other class, with its [str]. *)
Inductive LCMessage : Type :=
| HumanMessage (content : string)
| AIMessage (content : string)
| ToolMessage (content : string) (name : string) (tool_call_id : string)
| OtherMessage (str : string).

Definition user_message_dict (text : string) : Message :=
  {| role := "user"; content := text; name := None; tool_call_id := None |}.

Definition assistant_message_dict (text : string) : Message :=
  {| role := "assistant"; content := text; name := None; tool_call_id := None |}.

(** [_serialize_message] *)
Definition _serialize_message (msg : LCMessage) : Message :=
  match msg with
  | HumanMessage c => user_message_dict c
  | AIMessage c => assistant_message_dict c
  | ToolMessage c n i =>
      {| role := "tool"; content := c; name := Some n; tool_call_id := Some i |}
  | OtherMessage s =>
      {| role := "unknown"; content := s; name := None; tool_call_id := None |}
  end.

(** ** [run_agent]: the pure steps *)

Definition MAX_HISTORY_MESSAGES : nat := 12.

(** The sliding window: [conversation_history[-MAX_HISTORY_MESSAGES:]]
    when the history is longer than the bound. *)
Definition trim_history (conversation_history : list Message) : list Message :=
  if bool_decide (MAX_HISTORY_MESSAGES < length conversation_history)
  then drop (length conversation_history - MAX_HISTORY_MESSAGES) conversation_history
  else conversation_history.

(** One turn of the loop that fills [lc_messages]: the [if/elif] chain on
    the role has no [else], a message of another role adds nothing. *)
Definition to_lc_message (msg : Message) : option LCMessage :=
  if bool_decide (role msg = "user") then Some (HumanMessage (content msg))
  else if bool_decide (role msg = "assistant") then Some (AIMessage (content msg))
  else if bool_decide (role msg = "tool") then
    Some (ToolMessage (content msg) (default "" (name msg))
            (default "" (tool_call_id msg)))
  else None.

Fixpoint to_lc_messages (conversation_history : list Message) : list LCMessage :=
  match conversation_history with
  | [] => []
  | msg :: rest =>
      match to_lc_message msg with
      | Some m => m :: to_lc_messages rest
      | None => to_lc_messages rest
      end
  end.

(** The loop over [reversed(response_messages)], written on the reversed
    list: stop at the first [AIMessage] whose content is not empty. *)
Fixpoint first_reply (reversed_messages : list LCMessage) : string :=
  match reversed_messages with
  | [] => ""
  | AIMessage c :: rest => if Str.nonempty c then c else first_reply rest
  | _ :: rest => first_reply rest
  end.

Definition extract_output (response_messages : list LCMessage) : string :=
  first_reply (rev response_messages).

(** The payload a message offers: group 1 of the pattern in the content
    of a [ToolMessage], nothing for the other classes. *)
Definition sentinel_payload (msg : LCMessage) : option string :=
  match msg with
  | ToolMessage c _ _ => Re.search_group1 reservation_pattern c
  | _ => None
  end.

(** The loop over [response_messages] that sets [reservation_json]: it
    runs to the end of the list and assigns at every match. *)
Fixpoint scan_reservation (reservation_json : option string)
    (response_messages : list LCMessage) : option string :=
  match response_messages with
  | [] => reservation_json
  | msg :: rest =>
      match sentinel_payload msg with
      | Some payload => scan_reservation (Some payload) rest
      | None => scan_reservation reservation_json rest
      end
  end.

Definition extract_reservation (response_messages : list LCMessage)
  : option string :=
  scan_reservation None response_messages.

(** The reading of the specification: the first tool message that matches
    decides. *)
Fixpoint first_match_payload (response_messages : list LCMessage)
  : option string :=
  match response_messages with
  | [] => None
  | msg :: rest =>
      match sentinel_payload msg with
      | Some payload => Some payload
      | None => first_match_payload rest
      end
  end.

Section Model.

Context `{J : PyJSON}.

(** ** The tool context store

    [run_agent] imports three functions of [src/tools.py], a module that
    is not among the sources at hand. *)

(** Modelled from the spec: the state of the module [src/tools.py], the
    conversation the tools may read and the key/value store "shared
    between tool invocations within and across turns". *)
Record ToolsState : Type := {
  conversation_context : list Message;
  tool_store : gmap string pyval;
}.

(** Modelled from the spec: [set_conversation_context] of [src/tools.py],
    which gives the tools "access to the current history" for the turn. *)
Definition set_conversation_context (history : list Message)
    (ts : ToolsState) : ToolsState :=
  {| conversation_context := history; tool_store := tool_store ts |}.

(** Modelled from the spec: [set_tool_context] of [src/tools.py], the
    operation [set(key, value)] of the store, last write wins. *)
Definition set_tool_context (key : string) (value : pyval)
    (ts : ToolsState) : ToolsState :=
  {| conversation_context := conversation_context ts;
     tool_store := <[key := value]> (tool_store ts) |}.

(** Modelled from the spec: [get_tool_context] of [src/tools.py], the
    operation [get(key) -> value|null] of the store. *)
Definition get_tool_context (key : string) (ts : ToolsState) : option pyval :=
  tool_store ts !! key.

(** [for key, value in tool_context.items(): if value is not None:
    set_tool_context(key, value)] *)
Definition restore_tool_context (tool_context : gmap string (option pyval))
    (ts : ToolsState) : ToolsState :=
  map_fold
    (λ key value acc,
       match value with
       | Some v => set_tool_context key v acc
       | None => acc
       end)
    ts tool_context.

(** ** The agent

    [agent.invoke] is the external language model with its tools: given
    the messages it returns the messages of the response, or raises
    ([None]); on the way its tools read and write the store. *)
Record Agent : Type := {
  invoke : list LCMessage → ToolsState → option (list LCMessage) * ToolsState;
}.

(** The dict [run_agent] returns; its four keys are always present. *)
Record AgentResult : Type := {
  output : string;
  new_messages : list Message;
  updated_tool_context : gmap string (option pyval);
  reservation_json : option string;
}.

(** [run_agent(agent, user_message, conversation_history, tool_context)].
    [user_message] is only logged; the guard [if tool_context:] skips a
    loop that would do nothing; [response.get('messages', [])] is the
    list the agent returns. *)
Definition run_agent (agent : Agent) (user_message : string)
    (conversation_history : list Message)
    (tool_context : gmap string (option pyval))
    (ts : ToolsState) : (exn + AgentResult) * ToolsState :=
  let ts := set_conversation_context conversation_history ts in
  let ts := restore_tool_context tool_context ts in
  let conversation_history := trim_history conversation_history in
  let lc_messages := to_lc_messages conversation_history in
  match invoke agent lc_messages ts with
  | (None, ts) => (inl AgentError, ts)
  | (Some response_messages, ts) =>
      let new_lc_messages := drop (length lc_messages) response_messages in
      (inr {| output := extract_output response_messages;
              new_messages := _serialize_message <$> new_lc_messages;
              updated_tool_context :=
                {[ "availability" := get_tool_context "availability" ts ]};
              reservation_json := extract_reservation response_messages |},
       ts)
  end.

(** ** The Flask session

    The session is a dict kept in a signed cookie.  During a request the
    handler works on the dict loaded from the cookie; when the request
    ends Flask writes the dict back only if it was marked modified,
    which an assignment [session[key] = value] does and a read or an
    update in place of a stored list does not. *)

Record Session : Type := {
  messages : option (list Message);
  reservations : option (list pyval);
  tool_context : option (gmap string (option pyval));
}.

(** A request-time state: the session dict in memory, its [modified]
    flag, and the state of the tools module of the process. *)
Record Flask : Type := {
  session : Session;
  modified : bool;
  tools : ToolsState;
}.

Definition new_session : Session :=
  {| messages := None; reservations := None; tool_context := None |}.

Definition with_messages (v : option (list Message)) (s : Session) : Session :=
  {| messages := v; reservations := reservations s;
     tool_context := tool_context s |}.

Definition with_reservations (v : option (list pyval)) (s : Session) : Session :=
  {| messages := messages s; reservations := v;
     tool_context := tool_context s |}.

Definition with_tool_context (v : option (gmap string (option pyval)))
    (s : Session) : Session :=
  {| messages := messages s; reservations := reservations s;
     tool_context := v |}.

(** ** Handlers as state-and-exception computations *)

Definition M (A : Type) : Type := Flask → (exn + A) * Flask.

Definition ret {A} (a : A) : M A := λ st, (inr a, st).

Definition bind {A B} (m : M A) (f : A → M B) : M B :=
  λ st, match m st with
        | (inl e, st') => (inl e, st')
        | (inr a, st') => f a st'
        end.

Definition raise {A} (e : exn) : M A := λ st, (inl e, st).

(** [try: body except E: handler], [E] the exceptions [catches] accepts. *)
Definition try_except {A} (body : M A) (catches : exn → bool)
    (handler : M A) : M A :=
  λ st, match body st with
        | (inl e, st') => if catches e then handler st' else (inl e, st')
        | (inr a, st') => (inr a, st')
        end.

Definition get_session : M Session := λ st, (inr (session st), st).

(** [session[key] = value]: stores and marks the session modified. *)
Definition assign (f : Session → Session) : M unit :=
  λ st, (inr (), {| session := f (session st); modified := true;
                    tools := tools st |}).

(** An update in place of an object the session holds: the dict in
    memory changes, the flag does not. *)
Definition mutate (f : Session → Session) : M unit :=
  λ st, (inr (), {| session := f (session st); modified := modified st;
                    tools := tools st |}).

(** [session.modified = True] *)
Definition mark_modified : M unit :=
  λ st, (inr (), {| session := session st; modified := true;
                    tools := tools st |}).

(** A computation of the tools module, run inside a request. *)
Definition with_tools {A} (f : ToolsState → (exn + A) * ToolsState) : M A :=
  λ st, let '(r, ts) := f (tools st) in
        (r, {| session := session st; modified := modified st; tools := ts |}).

(** A subscript or a parse that may raise. *)
Definition or_raise {A} (e : exn) (o : option A) : M A :=
  match o with
  | Some a => ret a
  | None => raise e
  end.

#[global] Instance M_ret : MRet M := @ret.
#[global] Instance M_bind : MBind M := λ A B f m, bind m f.

(** ** The handlers of [app.py] *)

(** The body of a POST to [/chat]: a JSON object in which the key
    ['message'], when present, holds a string.  (A body that is no JSON
    object, or a message that is no string, makes [data.get] or [strip]
    raise and is answered 500; such bodies are outside this type.) *)
Record Request : Type := {
  message : option string;
}.

Inductive Body : Type :=
| Error (text : string)               (* [{'error': text}] *)
| ErrorOccurred (e : exn)             (* [{'error': f'An error occurred: {e}'}] *)
| ChatReply (message : string) (reservations : list pyval)
| Reservations (reservations : list pyval)
| StatusOk                            (* [{'status': 'ok'}] *)
| Page.                               (* the rendered [index.html] *)

Record Response : Type := {
  status : nat;
  body : Body;
}.

(** [index] *)
Definition index : M Response :=
  s ← get_session;
  (if messages s is None then assign (with_messages (Some [])) else ret ());;
  s ← get_session;
  (if reservations s is None then assign (with_reservations (Some [])) else ret ());;
  s ← get_session;
  (if tool_context s is None then assign (with_tool_context (Some ∅)) else ret ());;
  ret {| status := 200; body := Page |}.

(** The [try] block inside [if reservation_json:], with its handler
    [except json.JSONDecodeError: pass]. *)
Definition store_reservation (reservation_json : string) : M unit :=
  try_except
    (reservation ← or_raise JSONDecodeError (json_loads reservation_json);
     s ← get_session;
     let reservations := default [] (reservations s) in
     existing_ids ← or_raise SubscriptError
       (mapM (λ r, getitem r "reservation_id") reservations);
     reservation_id ← or_raise SubscriptError
       (getitem reservation "reservation_id");
     if negb (existsb (λ e, py_eq e reservation_id) existing_ids)
     then assign (with_reservations (Some (reservations ++ [reservation])))
     else ret ())
    is_JSONDecodeError
    (ret ()).

(** The body of the [try] of [chat]. *)
Definition chat_try (agent : Agent) (request : Request) : M Response :=
  let user_message := Str.strip (default "" (message request)) in
  if negb (Str.nonempty user_message)
  then ret {| status := 400; body := Error "Empty message" |}
  else
    s ← get_session;
    (* [session.get('messages', [])] is the stored list itself when the
       key is there: appending to it changes the session in memory *)
    let conversation_history := default [] (messages s) in
    let tool_context := default ∅ (tool_context s) in
    let conversation_history :=
      conversation_history ++ [user_message_dict user_message] in
    mutate (λ s, with_messages ((λ _, conversation_history) <$> messages s) s);;
    response ← with_tools
      (run_agent agent user_message conversation_history tool_context);
    (* [response.get('output', 'Sorry, I encountered an error.')]: the
       key is always there, the default is never taken *)
    let assistant_message :=
      default "Sorry, I encountered an error." (Some (output response)) in
    match reservation_json response with
    | Some reservation_json =>
        if Str.nonempty reservation_json
        then store_reservation reservation_json
        else ret ()
    | None => ret ()
    end;;
    let clean_message := scrub assistant_message in
    let conversation_history :=
      conversation_history ++ [assistant_message_dict clean_message] in
    mutate (λ s, with_messages ((λ _, conversation_history) <$> messages s) s);;
    assign (with_messages (Some conversation_history));;
    assign (with_tool_context (Some (updated_tool_context response)));;
    mark_modified;;
    s ← get_session;
    ret {| status := 200;
           body := ChatReply clean_message (default [] (reservations s)) |}.

(** [chat]: [agent] is the module-level agent, [None] when its creation
    failed at start-up. *)
Definition chat (agent : option Agent) (request : Request)
  : Flask → Response * Flask :=
  λ st,
    match agent with
    | None =>
        ({| status := 500;
            body := Error "Agent not initialized. Please check your configuration." |},
         st)
    | Some agent =>
        match chat_try agent request st with
        | (inr response, st') => (response, st')
        | (inl e, st') => ({| status := 500; body := ErrorOccurred e |}, st')
        end
    end.

(** A handler that raises nothing. *)
Definition total (m : M Response) : Flask → Response * Flask :=
  λ st,
    match m st with
    | (inr response, st') => (response, st')
    | (inl e, st') => ({| status := 500; body := ErrorOccurred e |}, st')
    end.

(** [reset] *)
Definition reset : M Response :=
  assign (with_messages (Some []));;
  assign (with_reservations (Some []));;
  assign (with_tool_context (Some ∅));;
  mark_modified;;
  ret {| status := 200; body := StatusOk |}.

(** [get_reservations] *)
Definition get_reservations : M Response :=
  s ← get_session;
  ret {| status := 200; body := Reservations (default [] (reservations s)) |}.

(** One request: Flask loads the session from the cookie, runs the
    handler and writes the session back when it is marked modified.
    Returns the response, the session the client holds afterwards and
    the state of the tools module. *)
Definition serve (handler : Flask → Response * Flask) (cookie : Session)
    (ts : ToolsState) : Response * Session * ToolsState :=
  let '(response, st) :=
    handler {| session := cookie; modified := false; tools := ts |} in
  (response, if modified st then session st else cookie, tools st).

Definition response_of (r : Response * Session * ToolsState) : Response := r.1.1.
Definition session_of (r : Response * Session * ToolsState) : Session := r.1.2.

(** The routes that touch the session. *)
Inductive handler : (Flask → Response * Flask) → Prop :=
| handle_index : handler (total index)
| handle_chat agent request : handler (chat agent request)
| handle_reset : handler (total reset)
| handle_get_reservations : handler (total get_reservations).

(** The sessions a client can hold: none at first, then what the
    requests it sends leave, whatever the agent and the tools do. *)
Inductive reachable : Session → Prop :=
| reachable_new : reachable new_session
| reachable_serve h cookie ts :
    reachable cookie → handler h → reachable (session_of (serve h cookie ts)).

End Model.

(** ** An instance of the interface

    JSON values without fractions, and a reader for JSON texts without
    fractions, exponents and escape sequences (it rejects a text that
    uses one).  It serves to run the handlers on concrete requests. *)

Module SimpleJSON.

#[local] Unset Elimination Schemes.
Inductive jval : Type :=
| JNull
| JBool (b : bool)
| JInt (n : Z)
| JStr (s : string)
| JArr (items : list jval)
| JObj (fields : list (string * jval)).
#[local] Set Elimination Schemes.

Definition quote : ascii := ascii_of_nat 34.
Definition backslash : ascii := ascii_of_nat 92.

Definition is_ws (a : ascii) : bool :=
  let n := nat_of_ascii a in
  (n =? 32) || (n =? 9) || (n =? 10) || (n =? 13).

Fixpoint skip_ws (s : string) : string :=
  match s with
  | String a s' => if is_ws a then skip_ws s' else s
  | EmptyString => EmptyString
  end.

(** The characters up to the closing quote, and what follows it. *)
Fixpoint read_string (s : string) : option (string * string) :=
  match s with
  | EmptyString => None
  | String a s' =>
      if bool_decide (a = quote) then Some (EmptyString, s')
      else if bool_decide (a = backslash) then None
      else if nat_of_ascii a <? 32 then None
      else '(t, rest) ← read_string s'; Some (String a t, rest)
  end.

Definition digit (a : ascii) : option Z :=
  let n := nat_of_ascii a in
  if (48 <=? n) && (n <=? 57) then Some (Z.of_nat (n - 48)) else None.

Fixpoint read_digits (acc : Z) (s : string) : Z * string :=
  match s with
  | String a s' =>
      match digit a with
      | Some d => read_digits (10 * acc + d) s'
      | None => (acc, s)
      end
  | EmptyString => (acc, s)
  end.

(** An integer without sign: a single [0], or digits that do not start
    with [0]; a fraction or an exponent after it is refused. *)
Definition read_nat (s : string) : option (Z * string) :=
  match s with
  | String a s' =>
      match digit a with
      | Some d =>
          let '(n, rest) := if (d =? 0)%Z then (0%Z, s') else read_digits d s' in
          match rest with
          | String b _ =>
              if bool_decide (b = "." ∨ b = "e" ∨ b = "E")%char then None
              else Some (n, rest)
          | EmptyString => Some (n, rest)
          end
      | None => None
      end
  | EmptyString => None
  end.

Fixpoint strip_prefix (p s : string) : option string :=
  match p, s with
  | EmptyString, _ => Some s
  | String a p', String b s' =>
      if bool_decide (a = b) then strip_prefix p' s' else None
  | String _ _, EmptyString => None
  end.

Fixpoint lookup_field (k : string) (fields : list (string * jval))
  : option jval :=
  match fields with
  | [] => None
  | (k', v) :: rest => if bool_decide (k = k') then Some v else lookup_field k rest
  end.

(** [d[k] = v] on a dict that keeps the order of first insertion. *)
Fixpoint dict_set (k : string) (v : jval) (fields : list (string * jval))
  : list (string * jval) :=
  match fields with
  | [] => [(k, v)]
  | (k', v') :: rest =>
      if bool_decide (k = k') then (k, v) :: rest
      else (k', v') :: dict_set k v rest
  end.

Definition read_scalar (s : string) : option (jval * string) :=
  match strip_prefix "null" s, strip_prefix "true" s, strip_prefix "false" s with
  | Some rest, _, _ => Some (JNull, rest)
  | _, Some rest, _ => Some (JBool true, rest)
  | _, _, Some rest => Some (JBool false, rest)
  | _, _, _ =>
      match s with
      | String "-" s' => '(n, rest) ← read_nat s'; Some (JInt (- n), rest)
      | _ => '(n, rest) ← read_nat s; Some (JInt n, rest)
      end
  end.

Fixpoint value (fuel : nat) (s : string) : option (jval * string) :=
  match fuel with
  | O => None
  | S fuel =>
      match skip_ws s with
      | String "{" s' =>
          match skip_ws s' with
          | String "}" s'' => Some (JObj [], s'')
          | _ => members fuel s' []
          end
      | String "[" s' =>
          match skip_ws s' with
          | String "]" s'' => Some (JArr [], s'')
          | _ => elements fuel s' []
          end
      | String a s' =>
          if bool_decide (a = quote)
          then '(t, rest) ← read_string s'; Some (JStr t, rest)
          else read_scalar (String a s')
      | EmptyString => None
      end
  end
with members (fuel : nat) (s : string) (acc : list (string * jval))
  : option (jval * string) :=
  match fuel with
  | O => None
  | S fuel =>
      match skip_ws s with
      | String a s1 =>
          if bool_decide (a = quote) then
            '(k, s2) ← read_string s1;
            match skip_ws s2 with
            | String ":" s3 =>
                '(v, s4) ← value fuel s3;
                match skip_ws s4 with
                | String "," s5 => members fuel s5 (dict_set k v acc)
                | String "}" s5 => Some (JObj (dict_set k v acc), s5)
                | _ => None
                end
            | _ => None
            end
          else None
      | EmptyString => None
      end
  end
with elements (fuel : nat) (s : string) (acc : list jval)
  : option (jval * string) :=
  match fuel with
  | O => None
  | S fuel =>
      '(v, s1) ← value fuel s;
      match skip_ws s1 with
      | String "," s2 => elements fuel s2 (acc ++ [v])
      | String "]" s2 => Some (JArr (acc ++ [v]), s2)
      | _ => None
      end
  end.

(** [json.loads]: one value, with nothing but white space after it. *)
Definition loads (s : string) : option jval :=
  '(v, rest) ← value (2 * String.length s + 2) s;
  match skip_ws rest with
  | EmptyString => Some v
  | String _ _ => None
  end.

(** [v[key]]: defined on a dict that has the key. *)
Definition subscript (v : jval) (key : string) : option jval :=
  match v with
  | JObj fields => lookup_field key fields
  | _ => None
  end.

(** [==]: by structure, dicts without regard to the order of their
    keys, and with Python's [True == 1] and [False == 0]. *)
Fixpoint eqb (a b : jval) {struct a} : bool :=
  match a, b with
  | JNull, JNull => true
  | JBool x, JBool y => Bool.eqb x y
  | JBool x, JInt n | JInt n, JBool x => (n =? (if x then 1 else 0))%Z
  | JInt n, JInt m => (n =? m)%Z
  | JStr s, JStr t => bool_decide (s = t)
  | JArr xs, JArr ys =>
      (fix all2 (xs ys : list jval) : bool :=
         match xs, ys with
         | [], [] => true
         | x :: xs', y :: ys' => eqb x y && all2 xs' ys'
         | _, _ => false
         end) xs ys
  | JObj fs, JObj gs =>
      (length fs =? length gs)
      && forallb (λ kv, match lookup_field kv.1 gs with
                        | Some w => eqb kv.2 w
                        | None => false
                        end) fs
  | _, _ => false
  end.

Definition py : PyJSON :=
  {| pyval := jval; json_loads := loads; getitem := subscript; py_eq := eqb |}.

End SimpleJSON.

(** ** Sample data *)

Module Sample.

Definition quoted (s : string) : string :=
  String SimpleJSON.quote (s +:+ String SimpleJSON.quote EmptyString).

(** The JSON text of a reservation with the given id, for a party of two. *)
Definition reservation_text (id : string) : string :=
  "{" +:+ quoted "reservation_id" +:+ ": " +:+ quoted id +:+ ", "
  +:+ quoted "party_size" +:+ ": 2}".

(** What [make_reservation_tool] returns: a sentence and the sentinel. *)
Definition booking_output (payload : string) : string :=
  "Reservation confirmed. " +:+ sentinel_prefix +:+ payload.

Definition booking_message (payload : string) : LCMessage :=
  ToolMessage (booking_output payload) "make_reservation_tool" "call_1".

(** Thirteen and two messages of a transcript, alternating roles. *)
Definition transcript (n : nat) : list Message :=
  (λ i, if Nat.even i then user_message_dict "Any table tonight?"
        else assistant_message_dict "Let me check.") <$> seq 0 n.

(** Two bookings in one response. *)
Definition two_bookings : list LCMessage :=
  [HumanMessage "Book both, please";
   booking_message (reservation_text "r1");
   booking_message (reservation_text "r2");
   AIMessage "Both tables are booked."].

(** A record of a role the program does not know. *)
Definition system_note : Message :=
  {| role := "system"; content := "Be brief."; name := None;
     tool_call_id := None |}.

(** A reply in which a sentinel stands inside the literal text of
    another one. *)
Definition nested_sentinel : string :=
  sentinel_prefix +:+ sentinel_prefix +:+ "{a}{b}".

Definition booked_reply : string :=
  "Your table is booked." +:+ String Re.newline (sentinel_prefix +:+ "{r1}").

Section Agents.

Context `{J : PyJSON}.

Definition empty_tools : ToolsState :=
  {| conversation_context := []; tool_store := ∅ |}.

(** An agent that answers with one sentence and calls no tool. *)
Definition replying_agent (reply : string) : Agent :=
  {| invoke := λ lc_messages ts, (Some (lc_messages ++ [AIMessage reply]), ts) |}.

(** An agent that only echoes its input: no reply at all. *)
Definition silent_agent : Agent :=
  {| invoke := λ lc_messages ts, (Some lc_messages, ts) |}.

(** An agent whose tools book a table and leave two slots in the
    store, the recognized [availability] and one more. *)
Definition booking_agent (payload : string) (slot : pyval) : Agent :=
  {| invoke := λ lc_messages ts,
       (Some (lc_messages
              ++ [booking_message payload; AIMessage "Your table is booked."]),
        set_tool_context "last_search" slot
          (set_tool_context "availability" slot ts)) |}.

End Agents.

Definition r1 : @pyval SimpleJSON.py :=
  SimpleJSON.JObj [("reservation_id", SimpleJSON.JStr "r1");
                   ("party_size", SimpleJSON.JInt 2)].

Definition r2 : @pyval SimpleJSON.py :=
  SimpleJSON.JObj [("reservation_id", SimpleJSON.JStr "r2");
                   ("party_size", SimpleJSON.JInt 2)].

Definition seven_pm : @pyval SimpleJSON.py := SimpleJSON.JStr "7pm".

(** A session after one exchange and the booking [r1]. *)
Definition booked_session : @Session SimpleJSON.py :=
  {| messages := Some (transcript 2);
     reservations := Some [r1];
     tool_context := Some {[ "availability" := Some seven_pm ]} |}.

Definition booked_state : @Flask SimpleJSON.py :=
  {| session := booked_session; modified := false; tools := empty_tools |}.

(** A session that holds a record of an unknown role. *)
Definition noted_session : @Session SimpleJSON.py :=
  {| messages := Some [system_note]; reservations := Some [];
     tool_context := Some ∅ |}.

End Sample.

(** ** Start-up, the health route and further notions *)

(** Every character of the string is white space: what [s.strip()]
    leaves nothing of. *)
Fixpoint all_space (s : string) : bool :=
  match s with
  | EmptyString => true
  | String a s' => Str.isspace a && all_space s'
  end.

(** The characters of a string. *)
Fixpoint chars (s : string) : list ascii :=
  match s with
  | EmptyString => []
  | String a s' => a :: chars s'
  end.

(** [type(msg).__name__ == 'ToolMessage'] *)
Definition is_tool_message (msg : LCMessage) : bool :=
  match msg with
  | ToolMessage _ _ _ => true
  | _ => false
  end.


(** The transcript of a list of turns, each the text of the user and the
    reply stored for it. *)
Definition transcript_of (turns : list (string * string)) : list Message :=
  turns ≫= (λ turn, [user_message_dict turn.1; assistant_message_dict turn.2]).

Section Startup.

Context `{J : PyJSON}.

(** [create_bitebot_agent]: raises [ValueError] ([None]) when
    [os.getenv('OPENAI_API_KEY')] is unset or empty; otherwise the result
    of building the model and the agent with the framework, [framework],
    which is [None] when one of its constructors raises. *)
Definition create_bitebot_agent (environ : gmap string string)
    (framework : option Agent) : option Agent :=
  if negb (Str.nonempty (default "" (environ !! "OPENAI_API_KEY")))
  then None
  else framework.

(** The module-level [try: agent = create_bitebot_agent() except
    Exception: agent = None] of [app.py]. *)
Definition initial_agent (environ : gmap string string)
    (framework : option Agent) : option Agent :=
  match create_bitebot_agent environ framework with
  | Some agent => Some agent
  | None => None
  end.

(** The JSON object [health] returns. *)
Record HealthReport : Type := {
  health_status : string;
  agent_initialized : bool;
  timestamp : string;
}.

(** [health]: [now] is [datetime.now().isoformat()], read from the clock.
    The route does not touch the session. *)
Definition health (agent : option Agent) (now : string)
  : Flask → (nat * HealthReport) * Flask :=
  λ st,
    ((200, {| health_status := "healthy";
              agent_initialized := if agent is Some _ then true else false;
              timestamp := now |}),
     st).

End Startup.

(** A run of [n] newline characters. *)
Fixpoint newlines (n : nat) : string :=
  match n with
  | O => EmptyString
  | S k => String Re.newline (newlines k)
  end.

(** A sentinel line as the reservation tool writes it: the sentinel text
    and a brace pair holding [body], with [k] newlines before and [m]
    after. *)
Definition sentinel_line (k : nat) (body : string) (m : nat) : string :=
  newlines k +:+ sentinel_prefix +:+ "{" +:+ body +:+ "}" +:+ newlines m.

(** ** Further sample data *)

Module Scenario.

Section Agents.

Context `{J : PyJSON}.

(** An agent whose invocation raises. *)
Definition failing_agent : Agent :=
  {| invoke := λ _ ts, (None, ts) |}.

End Agents.

(** A payload in braces that is not JSON. *)
Definition malformed_payload : string := "{oops}".

(** What [run_agent] returns for a booking agent after the user message
    [Book it] on the booked session. *)
Definition booking_result (payload : string) : @AgentResult SimpleJSON.py :=
  {| output := "Your table is booked.";
     new_messages :=
       [_serialize_message (Sample.booking_message payload);
        assistant_message_dict "Your table is booked."];
     updated_tool_context := {[ "availability" := Some Sample.seven_pm ]};
     reservation_json := Some payload |}.

Definition book_it : Request := {| message := Some "Book it" |}.

(** The session after two bookings, [r1] and then [r2]. *)
Definition twice_booked_session : @Session SimpleJSON.py :=
  session_of
    (serve (chat (Some (Sample.booking_agent (Sample.reservation_text "r2")
                          Sample.seven_pm)) book_it)
       (session_of
          (serve (chat (Some (Sample.booking_agent (Sample.reservation_text "r1")
                                Sample.seven_pm)) book_it)
             new_session Sample.empty_tools))
       Sample.empty_tools).

(** A reply of the assistant that repeats the sentinel line of the tool. *)
Definition confirmed_text : string := "Your table is booked.".

Definition payload_body : string := Sample.quoted "reservation_id" +:+ ": 7".

(** What stands between the outer braces of a payload with an object
    inside, without and with the brace that closes the inner object. *)
Definition open_nested_body : string :=
  Sample.quoted "reservation_id" +:+ ": 7, " +:+ Sample.quoted "table"
  +:+ ": {" +:+ Sample.quoted "seats" +:+ ": 2".

Definition nested_body : string := open_nested_body +:+ "}".

End Scenario.

(** ** Properties of the window, the extraction and the scrubbing *)

Lemma drop_suffix_length {A} (n : nat) (l : list A) :
  n ≤ length l → length (drop (length l - n) l) = n.
Proof. intros Hn. rewrite length_drop. lia. Qed.

(** C1. For a transcript of more than 12 messages the window handed on to
    the agent is its last 12 entries in their order (it has 12 entries
    and the transcript is some older part followed by the window); a
    transcript of at most 12 messages is its own window. *)
Theorem trim_history_window (h : list Message) :
  (MAX_HISTORY_MESSAGES < length h →
     length (trim_history h) = 12 ∧ ∃ older, h = older ++ trim_history h)
  ∧ (length h ≤ MAX_HISTORY_MESSAGES → trim_history h = h).
Proof.
  unfold trim_history, MAX_HISTORY_MESSAGES. split; intros Hlen.
  - rewrite bool_decide_eq_true_2 by done. split.
    + apply drop_suffix_length. lia.
    + exists (take (length h - 12) h). by rewrite take_drop.
  - rewrite bool_decide_eq_false_2; [done | lia].
Qed.

Lemma trim_history_window_witness :
  (length (trim_history (Sample.transcript 13)) = 12
   ∧ ∃ older, Sample.transcript 13 = older ++ trim_history (Sample.transcript 13))
  ∧ trim_history (Sample.transcript 2) = Sample.transcript 2.
Proof.
  split.
  - apply (trim_history_window (Sample.transcript 13)). vm_compute. lia.
  - apply (trim_history_window (Sample.transcript 2)). vm_compute. lia.
Defined.

(** The window is what [to_lc_messages] converts: on a transcript whose
    roles are all known, one message each, in order. *)
Lemma to_lc_messages_known (h : list Message) :
  Forall (λ msg, is_Some (to_lc_message msg)) h →
  Some <$> to_lc_messages h = to_lc_message <$> h.
Proof.
  induction 1 as [|msg h [m Hm] _ IH]; [done|].
  cbn. rewrite Hm. cbn. by rewrite IH.
Qed.

Lemma scan_reservation_app (acc : option string) (l1 l2 : list LCMessage) :
  scan_reservation acc (l1 ++ l2) = scan_reservation (scan_reservation acc l1) l2.
Proof.
  revert acc. induction l1 as [|msg l1 IH]; intros acc; [done|].
  cbn. destruct (sentinel_payload msg); apply IH.
Qed.

Lemma scan_reservation_no_match (acc : option string) (l : list LCMessage) :
  Forall (λ m, sentinel_payload m = None) l → scan_reservation acc l = acc.
Proof.
  induction 1 as [|msg l Hm _ IH]; [done|]. cbn. by rewrite Hm.
Qed.

(** The loop keeps the last match: it is the first match of the response
    read backwards. *)
Lemma extract_reservation_rev (msgs : list LCMessage) :
  extract_reservation msgs = first_match_payload (rev msgs).
Proof.
  unfold extract_reservation.
  induction msgs as [|msg msgs IH] using rev_ind; [done|].
  rewrite scan_reservation_app, rev_unit. cbn.
  destruct (sentinel_payload msg); [done | apply IH].
Qed.

(** C2, as the code has it.  The payload returned is that of the last
    tool message of the response that carries the sentinel: whatever
    comes before it, and however many earlier messages match, a matching
    message followed by messages without a match decides.  The result is
    one payload or none. *)
Theorem extract_reservation_last_match
    (before after : list LCMessage) (msg : LCMessage) (payload : string) :
  sentinel_payload msg = Some payload →
  Forall (λ m, sentinel_payload m = None) after →
  extract_reservation (before ++ msg :: after) = Some payload.
Proof.
  intros Hmsg Hafter. unfold extract_reservation.
  rewrite scan_reservation_app. cbn. rewrite Hmsg.
  by apply scan_reservation_no_match.
Qed.

Lemma extract_reservation_last_match_witness :
  extract_reservation Sample.two_bookings
  = Some (Sample.reservation_text "r2").
Proof.
  apply (extract_reservation_last_match
           [HumanMessage "Book both, please";
            Sample.booking_message (Sample.reservation_text "r1")]
           [AIMessage "Both tables are booked."]
           (Sample.booking_message (Sample.reservation_text "r2"))).
  - vm_compute. reflexivity.
  - repeat constructor.
Defined.

(** C2, as the specification words it, fails: with two bookings in one
    response the first match is [r1] and the code returns [r2]. *)
Lemma extract_reservation_not_first_match :
  first_match_payload Sample.two_bookings = Some (Sample.reservation_text "r1")
  ∧ extract_reservation Sample.two_bookings = Some (Sample.reservation_text "r2")
  ∧ extract_reservation Sample.two_bookings
    ≠ first_match_payload Sample.two_bookings.
Proof. vm_compute. by repeat split. Qed.

(** Where the pattern matches nowhere, nothing is removed. *)
Lemma remove_all_no_match (r : Re.regex) (s : string) :
  Re.test r s = false → Re.remove_all r s = s.
Proof.
  unfold Re.test, Re.remove_all. induction s as [|a s IH]; [done|].
  cbn [Re.search Re.remove_from]. unfold Re.match_len.
  destruct (Re.match_ r (String a s)) as [m|]; [done|].
  cbn. intros Hs. by rewrite IH.
Qed.

(** Dropping the rest of a match is dropping that many characters. *)
Lemma remove_from_skip (r : Re.regex) (k : nat) (s : string) :
  Re.remove_from r k s = Re.remove_all r (Str.drop k s).
Proof.
  unfold Re.remove_all. revert k. induction s as [|a s IH]; intros [|k]; try done.
  cbn. apply IH.
Qed.

(** The scan of [re.sub], one step at a time. *)
Lemma remove_all_step (r : Re.regex) (a : ascii) (s : string) :
  Re.remove_all r (String a s)
  = match Re.match_len r (String a s) with
    | Some (S n) => Re.remove_all r (Str.drop n s)
    | _ => String a (Re.remove_all r s)
    end.
Proof.
  unfold Re.remove_all at 1. cbn [Re.remove_from].
  destruct (Re.match_len r (String a s)) as [[|n]|]; try done.
  apply remove_from_skip.
Qed.

(** C4, as the code has it.  A reply without a sentinel is returned
    unchanged; and scrubbing a second time changes nothing whenever the
    reply scrubbed once holds no sentinel. *)
Theorem scrub_fixed_point (s : string) :
  (has_sentinel s = false → scrub s = s)
  ∧ (has_sentinel (scrub s) = false → scrub (scrub s) = scrub s).
Proof. split; intros Hs; by apply remove_all_no_match. Qed.

Lemma scrub_fixed_point_witness :
  scrub "Here are three Italian places." = "Here are three Italian places."
  ∧ scrub (scrub Sample.booked_reply) = scrub Sample.booked_reply.
Proof.
  split.
  - apply (scrub_fixed_point "Here are three Italian places.").
    vm_compute. reflexivity.
  - apply (scrub_fixed_point Sample.booked_reply). vm_compute. reflexivity.
Defined.

(** C4, as the specification words it, fails: removing a sentinel can
    join the text around it into a new one, which a second pass removes. *)
Lemma scrub_not_idempotent :
  scrub Sample.nested_sentinel = sentinel_prefix +:+ "{b}"
  ∧ scrub (scrub Sample.nested_sentinel) = ""
  ∧ scrub (scrub Sample.nested_sentinel) ≠ scrub Sample.nested_sentinel.
Proof. vm_compute. by repeat split. Qed.

(** ** The extracted payload is never empty *)

Lemma search_sound (r : Re.regex) (s suffix : string) (m : nat * Re.regs) :
  Re.search r s = Some (suffix, m) → Re.match_ r suffix = Some m.
Proof.
  induction s as [|a s IH]; cbn [Re.search].
  - destruct (Re.match_ r "") eqn:Hm; [|done]. by intros [= <- <-].
  - destruct (Re.match_ r (String a s)) eqn:Hm; [|done]. by intros [= <- <-].
Qed.

Lemma run_lit (p : string) (r : Re.regex) (s : string) (pos : nat)
    (g : Re.regs) (m : nat * Re.regs) :
  Re.run (Re.lit p ++ r) s pos g = Some m →
  ∃ s', s = p +:+ s' ∧ Re.run r s' (pos + String.length p) g = Some m.
Proof.
  revert s pos. induction p as [|a p IH]; intros s pos.
  - cbn [Re.lit app String.length]. intros Hm. exists s. split; [done|].
    by rewrite Nat.add_0_r.
  - cbn [Re.lit app Re.run]. destruct s as [|b s]; [done|].
    unfold Re.accepts. case_bool_decide as Hab; [|done]. subst b.
    intros Hm. destruct (IH _ _ Hm) as (s' & -> & Hs').
    exists s'. split; [done|]. cbn [String.length].
    by rewrite Nat.add_succ_r.
Qed.

Lemma run_star_unfold (c : Re.cclass) (r : Re.regex) (s : string) (pos : nat)
    (g : Re.regs) :
  Re.run (Re.Star c :: r) s pos g
  = match s with
    | String a s' =>
        if Re.accepts c a then
          match Re.run (Re.Star c :: r) s' (S pos) g with
          | Some m => Some m
          | None => Re.run r s pos g
          end
        else Re.run r s pos g
    | EmptyString => Re.run r s pos g
    end.
Proof. by destruct s. Qed.

Lemma run_one_unfold (c : Re.cclass) (r : Re.regex) (s : string) (pos : nat)
    (g : Re.regs) :
  Re.run (Re.One c :: r) s pos g
  = match s with
    | String a s' => if Re.accepts c a then Re.run r s' (S pos) g else None
    | EmptyString => None
    end.
Proof. done. Qed.

Lemma run_group_open (r : Re.regex) (s : string) (pos : nat) (g : Re.regs) :
  Re.run (Re.GroupOpen :: r) s pos g = Re.run r s pos (Some pos, g.2).
Proof. done. Qed.

Lemma run_group_close (r : Re.regex) (s : string) (pos : nat) (g : Re.regs) :
  Re.run (Re.GroupClose :: r) s pos g = Re.run r s pos (g.1, Some pos).
Proof. done. Qed.

(** After a greedy star the rest of the pattern matches further on. *)
Lemma run_star (c : Re.cclass) (r : Re.regex) (s : string) (pos : nat)
    (g : Re.regs) (m : nat * Re.regs) :
  Re.run (Re.Star c :: r) s pos g = Some m →
  ∃ s2 pos2, pos ≤ pos2 ∧ Re.run r s2 pos2 g = Some m.
Proof.
  revert pos. induction s as [|a s IH]; intros pos; rewrite run_star_unfold.
  - intros Hm. by exists "", pos.
  - destruct (Re.accepts c a); [|intros Hm; by exists (String a s), pos].
    destruct (Re.run (Re.Star c :: r) s (S pos) g) as [m'|] eqn:Hs.
    + intros [= ->]. destruct (IH _ Hs) as (s2 & pos2 & Hle & Hr).
      exists s2, pos2. split; [lia | done].
    + intros Hm. by exists (String a s), pos.
Qed.

(** Group 1 of the reservation pattern opens with a brace. *)
Lemma sentinel_payload_nonempty (msg : LCMessage) (payload : string) :
  sentinel_payload msg = Some payload → Str.nonempty payload = true.
Proof.
  destruct msg as [|c|c n i|]; try done. cbn [sentinel_payload].
  unfold Re.search_group1.
  destruct (Re.search reservation_pattern c) as [[suffix m]|] eqn:Hs; [|done].
  apply search_sound in Hs. unfold Re.match_, reservation_pattern in Hs.
  apply run_lit in Hs as (s' & -> & Hs).
  change (0 + String.length sentinel_prefix) with 43 in Hs.
  rewrite run_group_open, run_one_unfold in Hs.
  destruct s' as [|a s']; [done|].
  unfold Re.accepts in Hs. case_bool_decide as Ha; [subst a|done].
  apply run_star in Hs as (s2 & pos2 & Hle & Hs).
  rewrite run_one_unfold in Hs. destruct s2 as [|b s2]; [done|].
  destruct (Re.accepts _ b); [|done].
  rewrite run_group_close in Hs. cbn in Hs. injection Hs as <-.
  unfold Re.group1. cbn [snd]. intros [= <-].
  destruct (pos2 - 42) as [|k] eqn:Hk; [lia | done].
Qed.

Lemma scan_reservation_nonempty (acc : option string) (msgs : list LCMessage)
    (payload : string) :
  (∀ p, acc = Some p → Str.nonempty p = true) →
  scan_reservation acc msgs = Some payload → Str.nonempty payload = true.
Proof.
  revert acc. induction msgs as [|msg msgs IH]; intros acc Hacc; cbn.
  - apply Hacc.
  - destruct (sentinel_payload msg) as [p|] eqn:Hp; [|by apply IH].
    apply IH. intros p' [= <-]. by eapply sentinel_payload_nonempty.
Qed.

Lemma extract_reservation_nonempty (msgs : list LCMessage) (payload : string) :
  extract_reservation msgs = Some payload → Str.nonempty payload = true.
Proof. by apply scan_reservation_nonempty. Qed.

(** ** Properties of the handlers *)

Section Properties.

Context `{J : PyJSON}.

(** The three ways the reservation step can end: a subscript raised and
    nothing changed, nothing to add, or one reservation appended. *)
Lemma store_reservation_cases (payload : string) (st : Flask) :
  store_reservation payload st = (inl SubscriptError, st)
  ∨ store_reservation payload st = (inr (), st)
  ∨ ∃ reservation,
      json_loads payload = Some reservation
      ∧ is_Some (getitem reservation "reservation_id")
      ∧ store_reservation payload st
        = (inr (), {| session := with_reservations
                        (Some (default [] (reservations (session st)) ++ [reservation]))
                        (session st);
                      modified := true; tools := tools st |}).
Proof.
  unfold store_reservation, try_except, mbind, M_bind, bind, or_raise, get_session.
  destruct (json_loads payload) as [reservation|]; cbn; [|by right; left].
  destruct (mapM _ _) as [ids|]; cbn; [|by left].
  destruct (getitem reservation _) as [rid|] eqn:Hid; cbn; [|by left].
  destruct (existsb _ ids); cbn; [by right; left|].
  right; right. exists reservation. by rewrite Hid.
Qed.

(** A turn of [chat] either leaves the session of the client as it was
    and answers with an error, or answers 200 and stores the transcript
    with the two new messages, the snapshot of the tool context and at
    most one new reservation. *)
Lemma chat_outcome (agent : option Agent) (request : Request)
    (cookie : Session) (ts : ToolsState) :
  let r := serve (chat agent request) cookie ts in
  let user_message := Str.strip (default "" (message request)) in
  let history := default [] (messages cookie) ++ [user_message_dict user_message] in
  (session_of r = cookie ∧ status (response_of r) ≠ 200)
  ∨ (status (response_of r) = 200
     ∧ ∃ a result ts',
         agent = Some a
         ∧ run_agent a user_message history
             (default ∅ (tool_context cookie)) ts = (inr result, ts')
         ∧ body (response_of r)
           = ChatReply (scrub (output result))
               (default [] (reservations (session_of r)))
         ∧ messages (session_of r)
           = Some (history ++ [assistant_message_dict (scrub (output result))])
         ∧ tool_context (session_of r) = Some (updated_tool_context result)
         ∧ (reservations (session_of r) = reservations cookie
            ∨ ∃ reservation,
                is_Some (getitem reservation "reservation_id")
                ∧ reservations (session_of r)
                  = Some (default [] (reservations cookie) ++ [reservation]))).
Proof.
  intros r user_message history. subst r.
  destruct agent as [a|]; [|by left].
  unfold serve, chat, chat_try. fold user_message.
  destruct (Str.nonempty user_message) eqn:Hne; [|by left].
  cbn [negb]. unfold mbind, M_bind, bind, get_session, mutate, with_tools.
  cbn [session tools modified]. fold history.
  destruct (run_agent a user_message history _ ts) as [[e|result] ts'] eqn:Hrun;
    [by left|].
  set (st1 := {| session := _; modified := false; tools := ts' |}).
  assert (Hst1 : reservations (session st1) = reservations cookie) by done.
  destruct (reservation_json result) as [payload|];
    [destruct (Str.nonempty payload);
     [destruct (store_reservation_cases payload st1)
        as [-> | [-> | (reservation & _ & Hid & ->)]]|]|];
    cbn; try (by left);
    (right; split; [done|]; exists a, result, ts';
     repeat split; eauto).
Qed.

Lemma run_agent_result (agent : Agent) (user_message : string)
    (history : list Message) (tc : gmap string (option pyval))
    (ts ts' : ToolsState) (result : AgentResult) :
  run_agent agent user_message history tc ts = (inr result, ts') →
  ∃ response_messages,
    invoke agent (to_lc_messages (trim_history history))
      (restore_tool_context tc (set_conversation_context history ts))
    = (Some response_messages, ts')
    ∧ output result = extract_output response_messages
    ∧ reservation_json result = extract_reservation response_messages
    ∧ updated_tool_context result
      = {[ "availability" := get_tool_context "availability" ts' ]}.
Proof.
  unfold run_agent. cbv zeta.
  destruct (invoke agent _ _) as [[response_messages|] ts2]; [|done].
  intros [= <- <-]. by exists response_messages.
Qed.

Lemma run_agent_error (agent : Agent) (user_message : string)
    (history : list Message) (tc : gmap string (option pyval))
    (ts : ToolsState) (e : exn) :
  (run_agent agent user_message history tc ts).1 = inl e →
  e = AgentError
  ∧ (invoke agent (to_lc_messages (trim_history history))
       (restore_tool_context tc (set_conversation_context history ts))).1
    = None.
Proof.
  unfold run_agent. cbv zeta.
  destruct (invoke agent _ _) as [[response_messages|] ts2]; [done|].
  by intros [= <-].
Qed.

Lemma to_lc_messages_app (l1 l2 : list Message) :
  to_lc_messages (l1 ++ l2) = to_lc_messages l1 ++ to_lc_messages l2.
Proof.
  induction l1 as [|msg l1 IH]; [done|]. cbn.
  destruct (to_lc_message msg); cbn; by rewrite IH.
Qed.

(** C3, as the code has it.  A record whose role is none of [user],
    [assistant] and [tool] is passed over: the messages handed to the
    agent are those of the records before it followed by those of the
    records after it.  The conversion raises nothing: [run_agent] fails
    only when the agent itself raises. *)
Theorem unknown_role_skipped (before after : list Message) (msg : Message) :
  role msg ≠ "user" → role msg ≠ "assistant" → role msg ≠ "tool" →
  to_lc_messages (before ++ msg :: after)
  = to_lc_messages before ++ to_lc_messages after
  ∧ ∀ agent user_message tc ts e,
      let history := before ++ msg :: after in
      (run_agent agent user_message history tc ts).1 = inl e →
      (invoke agent (to_lc_messages (trim_history history))
         (restore_tool_context tc (set_conversation_context history ts))).1
      = None.
Proof.
  intros Huser Hassistant Htool. split.
  - rewrite to_lc_messages_app. cbn. unfold to_lc_message.
    by rewrite !bool_decide_eq_false_2.
  - intros agent user_message tc ts e history Hrun.
    by apply run_agent_error in Hrun as [_ Hrun].
Qed.

(** C5, as the code has it.  A request whose message is missing or
    empty once trimmed leaves the session and the tool store as they
    were; the answer is 400 when the agent is there, and 500 when its
    creation failed at start-up, which is checked first. *)
Theorem chat_empty_message (agent : option Agent) (request : Request)
    (cookie : Session) (ts : ToolsState) :
  Str.strip (default "" (message request)) = "" →
  let r := serve (chat agent request) cookie ts in
  session_of r = cookie ∧ r.2 = ts
  ∧ status (response_of r) = (if agent is Some _ then 400 else 500)
  ∧ (is_Some agent → body (response_of r) = Error "Empty message").
Proof.
  intros Hempty. destruct agent as [a|]; cbn.
  - unfold serve, chat, chat_try. rewrite Hempty. cbn. by repeat split.
  - repeat split. by intros [? ?].
Qed.

(** C6.  The reservation step of a turn, for a payload that parses to a
    reservation with an id, in a session whose reservations all have
    one: when the id is among the ids of the session the step changes
    nothing; otherwise the reservation is added once, at the end of the
    list, and nothing else of the session changes. *)
Theorem store_reservation_dedup (payload : string)
    (reservation reservation_id : pyval) (existing_ids : list pyval)
    (st : Flask) :
  json_loads payload = Some reservation →
  getitem reservation "reservation_id" = Some reservation_id →
  mapM (λ r, getitem r "reservation_id") (default [] (reservations (session st)))
  = Some existing_ids →
  store_reservation payload st
  = if existsb (λ e, py_eq e reservation_id) existing_ids
    then (inr (), st)
    else (inr (),
          {| session :=
               {| messages := messages (session st);
                  reservations :=
                    Some (default [] (reservations (session st)) ++ [reservation]);
                  tool_context := tool_context (session st) |};
             modified := true;
             tools := tools st |}).
Proof.
  intros Hloads Hid Hids.
  unfold store_reservation, try_except, mbind, M_bind, bind, or_raise, get_session.
  rewrite Hloads. cbn. rewrite Hids. cbn. rewrite Hid. cbn.
  by destruct (existsb _ existing_ids).
Qed.

(** C7, where the code departs from it.  When the agent returns no
    assistant message with content, [run_agent] returns the empty
    string under the key ['output']; the default of [response.get] is
    for a missing key, so the reply sent and stored is the empty
    string and not the fallback sentence. *)
Theorem chat_without_reply_sends_empty_message :
  let r := serve (chat (Some Sample.silent_agent) {| message := Some "hello" |})
             new_session Sample.empty_tools in
  extract_output [HumanMessage "hello"] = ""
  ∧ response_of r = {| status := 200; body := ChatReply "" [] |}
  ∧ messages (session_of r)
    = Some [user_message_dict "hello"; assistant_message_dict ""].
Proof. vm_compute. by repeat split. Qed.

(** Every reservation a session comes to hold has an id: the hypothesis
    of the reservation step on the stored ids is met in every session a
    client can hold. *)
Lemma reachable_reservations_have_ids (s : Session) :
  reachable s →
  is_Some (mapM (λ r, getitem r "reservation_id") (default [] (reservations s))).
Proof.
  induction 1 as [|h cookie ts Hcookie IH Hh]; [done|].
  destruct Hh as [|agent request| |]; try done.
  - by destruct cookie as [[?|] [?|] [?|]].
  - destruct (chat_outcome agent request cookie ts)
      as [[-> _] | (_ & a & result & ts' & _ & _ & _ & _ & _ & Hres)]; [done|].
    destruct Hres as [-> | (reservation & [rid Hid] & ->)]; [done|].
    destruct IH as [ids Hids]. cbn. exists (ids ++ [rid]).
    apply mapM_Some. apply mapM_Some in Hids.
    apply Forall2_app; [done|]. by constructor.
Qed.

Lemma index_tool_context (cookie : Session) (ts : ToolsState) :
  tool_context (session_of (serve (total index) cookie ts))
  = Some (default ∅ (tool_context cookie)).
Proof. by destruct cookie as [[?|] [?|] [?|]]. Qed.

(** C8.  The snapshot [run_agent] returns has the single key
    [availability], whatever the tools left in the store; a turn that
    answers 200 stores that snapshot; and so no session a client can
    come to hold has another key in its tool context. *)
Theorem tool_context_snapshot_keys :
  (∀ agent user_message history tc ts result ts',
      run_agent agent user_message history tc ts = (inr result, ts') →
      dom (updated_tool_context result) = {[ "availability" ]})
  ∧ (∀ agent request cookie ts,
       let r := serve (chat agent request) cookie ts in
       status (response_of r) = 200 →
       ∃ tc, tool_context (session_of r) = Some tc
             ∧ dom tc = {[ "availability" ]})
  ∧ (∀ s tc, reachable s → tool_context s = Some tc →
       dom tc ⊆ {[ "availability" ]}).
Proof.
  assert (Hsnap : ∀ agent user_message history tc ts result ts',
      run_agent agent user_message history tc ts = (inr result, ts') →
      dom (updated_tool_context result) = {[ "availability" ]}).
  { intros * Hrun. apply run_agent_result in Hrun as (? & _ & _ & _ & ->).
    apply dom_singleton_L. }
  assert (Hchat : ∀ agent request cookie ts,
       let r := serve (chat agent request) cookie ts in
       status (response_of r) = 200 →
       ∃ tc, tool_context (session_of r) = Some tc
             ∧ dom tc = {[ "availability" ]}).
  { intros agent request cookie ts r H200.
    destruct (chat_outcome agent request cookie ts)
      as [[_ Hne] | (_ & a & result & ts' & _ & Hrun & _ & _ & Htc & _)];
      [done|].
    exists (updated_tool_context result). split; [done|]. by eapply Hsnap. }
  split; [done|]. split; [done|].
  intros s tc Hs. revert tc.
  induction Hs as [|h cookie ts Hcookie IH Hh]; intros tc; [done|].
  destruct Hh as [|agent request| |].
  - rewrite index_tool_context. intros [= <-].
    destruct (tool_context cookie) as [tc|] eqn:Htc; cbn; [by apply IH|].
    by rewrite dom_empty_L.
  - destruct (chat_outcome agent request cookie ts)
      as [[-> _] | (H200 & _)]; [apply IH|].
    destruct (Hchat agent request cookie ts H200) as (tc' & -> & Hdom).
    intros [= <-]. by rewrite Hdom.
  - intros [= <-]. by rewrite dom_empty_L.
  - apply IH.
Qed.

(** C9.  Whatever the session holds, [reset] answers [ok] and leaves
    the three fields empty: no message, no reservation, no tool
    context; the reservations read back afterwards are the empty list. *)
Theorem reset_clears_session (cookie : Session) (ts : ToolsState) :
  let r := serve (total reset) cookie ts in
  response_of r = {| status := 200; body := StatusOk |}
  ∧ session_of r
    = {| messages := Some []; reservations := Some []; tool_context := Some ∅ |}
  ∧ ∀ ts', response_of (serve (total get_reservations) (session_of r) ts')
           = {| status := 200; body := Reservations [] |}.
Proof. done. Qed.

(** After a reset the next turn starts the transcript anew. *)
Lemma chat_after_reset (cookie : Session) (ts ts' : ToolsState)
    (agent : option Agent) (request : Request) :
  let fresh := session_of (serve (total reset) cookie ts) in
  let r := serve (chat agent request) fresh ts' in
  status (response_of r) = 200 →
  ∃ reply,
    messages (session_of r)
    = Some [user_message_dict (Str.strip (default "" (message request)));
            assistant_message_dict reply].
Proof.
  intros fresh r H200. subst r.
  destruct (chat_outcome agent request fresh ts')
    as [[_ Hne] | (_ & a & result & ts2 & _ & _ & _ & Hmsgs & _)]; [done|].
  by exists (scrub (output result)).
Qed.

Lemma run_agent_payload_nonempty (agent : Agent) (user_message : string)
    (history : list Message) (tc : gmap string (option pyval))
    (ts ts' : ToolsState) (result : AgentResult) (payload : string) :
  run_agent agent user_message history tc ts = (inr result, ts') →
  reservation_json result = Some payload →
  Str.nonempty payload = true.
Proof.
  intros Hrun Hp. apply run_agent_result in Hrun as (rm & _ & _ & Hr & _).
  rewrite Hr in Hp. by eapply extract_reservation_nonempty.
Qed.

(** C10.  A turn in which the agent answered and a payload was
    extracted that parses, but to a value that has no
    ['reservation_id']: the subscript raises, the handler for
    [json.JSONDecodeError] does not catch it, the request answers 500,
    and the session of the client is the one it sent: no user message,
    no reply, no new tool context. *)
Theorem chat_reservation_without_id (agent : Agent) (request : Request)
    (cookie : Session) (ts ts' : ToolsState) (result : AgentResult)
    (payload : string) (reservation : pyval) :
  let user_message := Str.strip (default "" (message request)) in
  user_message ≠ "" →
  run_agent agent user_message
    (default [] (messages cookie) ++ [user_message_dict user_message])
    (default ∅ (tool_context cookie)) ts = (inr result, ts') →
  reservation_json result = Some payload →
  json_loads payload = Some reservation →
  getitem reservation "reservation_id" = None →
  let r := serve (chat (Some agent) request) cookie ts in
  response_of r = {| status := 500; body := ErrorOccurred SubscriptError |}
  ∧ session_of r = cookie.
Proof.
  intros user_message Hne Hrun Hpayload Hloads Hid.
  pose proof (run_agent_payload_nonempty _ _ _ _ _ _ _ _ Hrun Hpayload) as Hp.
  unfold serve, chat, chat_try. fold user_message.
  destruct (Str.nonempty user_message) eqn:Hum;
    [|by destruct user_message].
  cbn [negb]. unfold mbind, M_bind, bind, get_session, mutate, with_tools.
  cbn [session tools modified]. rewrite Hrun, Hpayload, Hp.
  unfold store_reservation, try_except, mbind, M_bind, bind, or_raise, get_session.
  rewrite Hloads. cbn.
  destruct (mapM _ _) as [ids|]; cbn; [|done].
  by rewrite Hid.
Qed.

Lemma first_reply_skip (l1 l2 : list LCMessage) :
  Forall (λ m, ∀ c, m = AIMessage c → c = "") l1 →
  first_reply (l1 ++ l2) = first_reply l2.
Proof.
  induction 1 as [|m l1 Hm _ IH]; [done|]. cbn.
  destruct m as [|c| |]; try done.
  by rewrite (Hm c eq_refl).
Qed.

(** The reply extracted is the content of the last assistant message
    that has content; without one it is the empty string. *)
Lemma extract_output_last_reply (before after : list LCMessage) (c : string) :
  c ≠ "" →
  Forall (λ m, ∀ c', m = AIMessage c' → c' = "") after →
  extract_output (before ++ AIMessage c :: after) = c.
Proof.
  intros Hc Hafter. unfold extract_output.
  rewrite rev_app_distr. cbn [rev]. rewrite <- app_assoc.
  rewrite first_reply_skip by by apply Forall_rev.
  cbn. by destruct c.
Qed.

Lemma extract_output_no_reply (msgs : list LCMessage) :
  Forall (λ m, ∀ c, m = AIMessage c → c = "") msgs →
  extract_output msgs = "".
Proof.
  intros Hmsgs. unfold extract_output.
  rewrite <- (app_nil_r (rev msgs)).
  by rewrite first_reply_skip by by apply Forall_rev.
Qed.

(** What a turn that answers 200 sends is the scrubbed output of
    [run_agent], also when that output is empty. *)
Lemma chat_reply_of_empty_output (agent : Agent) (request : Request)
    (cookie : Session) (ts ts' : ToolsState) (result : AgentResult) :
  let user_message := Str.strip (default "" (message request)) in
  let r := serve (chat (Some agent) request) cookie ts in
  run_agent agent user_message
    (default [] (messages cookie) ++ [user_message_dict user_message])
    (default ∅ (tool_context cookie)) ts = (inr result, ts') →
  output result = "" →
  status (response_of r) = 200 →
  ∃ reservations, body (response_of r) = ChatReply "" reservations.
Proof.
  intros user_message r Hrun Hout H200. subst r.
  destruct (chat_outcome (Some agent) request cookie ts)
    as [[_ Hne] | (_ & a & result' & ts2 & [= <-] & Hrun' & Hbody & _)];
    [done|].
  fold user_message in Hrun'. rewrite Hrun in Hrun'.
  injection Hrun' as <- <-. rewrite Hbody, Hout. by eexists.
Qed.

End Properties.

(** ** The properties on concrete requests *)

Lemma unknown_role_skipped_witness :
  to_lc_messages ([] ++ Sample.system_note :: [user_message_dict "hello"])
  = to_lc_messages [] ++ to_lc_messages [user_message_dict "hello"].
Proof.
  apply (unknown_role_skipped (J := SimpleJSON.py) [] [user_message_dict "hello"]
           Sample.system_note); vm_compute; discriminate.
Defined.

(** C3, as the specification words it, fails: a record of role [system]
    in the history raises nothing, it is left out of what the agent
    receives and the turn answers 200. *)
Lemma unknown_role_no_error :
  let history := [Sample.system_note; user_message_dict "hello"] in
  let r := serve (chat (Some (Sample.replying_agent "Hi!"))
                    {| message := Some "hello" |})
             Sample.noted_session Sample.empty_tools in
  to_lc_messages history = [HumanMessage "hello"]
  ∧ (∃ result, (run_agent (Sample.replying_agent "Hi!") "hello" history ∅
                  (Sample.empty_tools (J := SimpleJSON.py))).1 = inr result)
  ∧ response_of r = {| status := 200; body := ChatReply "Hi!" [] |}.
Proof. split; [reflexivity|]. split; [eexists; reflexivity | reflexivity]. Qed.

Lemma chat_empty_message_witness :
  let r := serve (chat (Some (Sample.replying_agent "Hi!"))
                    {| message := Some "  " |})
             Sample.booked_session Sample.empty_tools in
  session_of r = Sample.booked_session ∧ r.2 = Sample.empty_tools
  ∧ status (response_of r) = 400
  ∧ (is_Some (Some (Sample.replying_agent (J := SimpleJSON.py) "Hi!")) →
     body (response_of r) = Error "Empty message").
Proof.
  apply (chat_empty_message (J := SimpleJSON.py)
           (Some (Sample.replying_agent "Hi!")) {| message := Some "  " |}
           Sample.booked_session Sample.empty_tools).
  reflexivity.
Defined.

(** C5, as the specification words it, fails: without an agent the
    answer to an empty message is 500, not 400. *)
Lemma empty_message_without_agent_is_500 :
  status (response_of (serve (chat None {| message := Some "" |})
                         Sample.booked_session Sample.empty_tools))
  = 500
  ∧ status (response_of (serve (chat None {| message := Some "" |})
                           Sample.booked_session Sample.empty_tools))
    ≠ 400.
Proof. split; [reflexivity | discriminate]. Qed.

Lemma store_reservation_dedup_witness :
  store_reservation (Sample.reservation_text "r1") Sample.booked_state
  = (inr (), Sample.booked_state)
  ∧ store_reservation (Sample.reservation_text "r2") Sample.booked_state
    = (inr (),
       {| session :=
            {| messages := messages Sample.booked_session;
               reservations := Some [Sample.r1; Sample.r2];
               tool_context := tool_context Sample.booked_session |};
          modified := true;
          tools := Sample.empty_tools |}).
Proof.
  split.
  - apply (store_reservation_dedup (J := SimpleJSON.py)
             (Sample.reservation_text "r1") Sample.r1 (SimpleJSON.JStr "r1")
             [SimpleJSON.JStr "r1"] Sample.booked_state); reflexivity.
  - apply (store_reservation_dedup (J := SimpleJSON.py)
             (Sample.reservation_text "r2") Sample.r2 (SimpleJSON.JStr "r2")
             [SimpleJSON.JStr "r1"] Sample.booked_state); reflexivity.
Defined.

Lemma tool_context_snapshot_keys_witness :
  let agent := Sample.booking_agent (Sample.reservation_text "r2") Sample.seven_pm in
  let request := {| message := Some "Book it" |} in
  let r := serve (chat (Some agent) request) new_session Sample.empty_tools in
  tool_store r.2 !! "last_search" = Some Sample.seven_pm
  ∧ (∃ tc, tool_context (session_of r) = Some tc ∧ dom tc = {[ "availability" ]})
  ∧ ∀ tc, tool_context (session_of r) = Some tc → dom tc ⊆ {[ "availability" ]}.
Proof.
  intros agent request r. split; [reflexivity|]. split.
  - apply (proj1 (proj2 (tool_context_snapshot_keys (J := SimpleJSON.py)))
             (Some agent) request new_session Sample.empty_tools).
    reflexivity.
  - intros tc.
    apply (proj2 (proj2 (tool_context_snapshot_keys (J := SimpleJSON.py)))).
    apply reachable_serve; constructor.
Defined.

Lemma chat_reservation_without_id_witness :
  let agent := Sample.booking_agent "{}" Sample.seven_pm in
  let r := serve (chat (Some agent) {| message := Some "Book it" |})
             Sample.booked_session Sample.empty_tools in
  response_of r = {| status := 500; body := ErrorOccurred SubscriptError |}
  ∧ session_of r = Sample.booked_session.
Proof.
  intros agent.
  eapply (chat_reservation_without_id (J := SimpleJSON.py) agent
            {| message := Some "Book it" |} Sample.booked_session
            Sample.empty_tools).
  - vm_compute. discriminate.
  - reflexivity.
  - reflexivity.
  - reflexivity.
  - reflexivity.
Defined.


(** ** Further properties of the conversions and the patterns *)

Lemma rstrip_empty (s : string) : Str.rstrip s = "" ↔ all_space s = true.
Proof.
  induction s as [|a s IH]; [done|]. cbn.
  destruct (Str.rstrip s) as [|b r].
  - destruct (Str.isspace a); cbn; [|done]. split; [|done].
    intros _. by apply IH.
  - split; [done|]. intros [_ Hs]%andb_prop. by apply IH in Hs.
Qed.

Lemma all_space_lstrip (s : string) : all_space (Str.lstrip s) = all_space s.
Proof.
  induction s as [|a s IH]; [done|]. cbn.
  destruct (Str.isspace a) eqn:Ha; cbn; [done|]. by rewrite Ha.
Qed.

(** [strip] leaves nothing exactly of the strings made of white space. *)
Lemma strip_empty (s : string) : Str.strip s = "" ↔ all_space s = true.
Proof. unfold Str.strip. by rewrite rstrip_empty, all_space_lstrip. Qed.


Lemma remove_from_sublist (r : Re.regex) (k : nat) (s : string) :
  chars (Re.remove_from r k s) `sublist_of` chars s.
Proof.
  revert k. induction s as [|a s IH]; intros k; cbn; [constructor|].
  destruct k as [|k]; [|by constructor].
  destruct (Re.match_len r (String a s)) as [[|n]|]; cbn; by constructor.
Qed.

(** X2.  Scrubbing only deletes: the characters of the scrubbed reply
    are characters of the reply, in the same order, so it is never
    longer; nothing is inserted or replaced. *)
Theorem scrub_only_deletes (s : string) :
  chars (scrub s) `sublist_of` chars s
  ∧ length (chars (scrub s)) ≤ length (chars s).
Proof.
  assert (H : chars (scrub s) `sublist_of` chars s)
    by apply remove_from_sublist.
  split; [done|]. by apply sublist_length.
Qed.

Lemma scan_reservation_filter (acc : option string) (msgs : list LCMessage) :
  scan_reservation acc (List.filter is_tool_message msgs)
  = scan_reservation acc msgs.
Proof.
  revert acc. induction msgs as [|msg msgs IH]; intros acc; [done|].
  destruct msg; cbn; try apply IH.
  destruct (Re.search_group1 _ _); apply IH.
Qed.

(** X3.  Only tool messages are searched for the sentinel: the payload
    extracted from a response is the one extracted from its tool messages
    alone, and a response without a tool message yields none, whatever
    its human and assistant messages contain. *)
Theorem extract_reservation_tool_messages_only (msgs : list LCMessage) :
  extract_reservation msgs
  = extract_reservation (List.filter is_tool_message msgs)
  ∧ (List.filter is_tool_message msgs = [] → extract_reservation msgs = None).
Proof.
  assert (H : extract_reservation msgs
              = extract_reservation (List.filter is_tool_message msgs)).
  { unfold extract_reservation. by rewrite scan_reservation_filter. }
  split; [done|]. intros Hnone. by rewrite H, Hnone.
Qed.


(** ** Further properties of [run_agent] and of the handlers *)

Section MoreProperties.

Context `{J : PyJSON}.

(** X4.  When the agent returns, the new messages of the result are the
    messages of the response beyond the number sent in, serialized: if
    the response echoes the input and adds messages, exactly the added
    ones; if the response is not longer than the input, none. *)
Theorem run_agent_new_messages (agent : Agent) (user_message : string)
    (history : list Message) (tc : gmap string (option pyval))
    (ts ts' : ToolsState) (response_messages : list LCMessage) :
  let lc_messages := to_lc_messages (trim_history history) in
  invoke agent lc_messages
    (restore_tool_context tc (set_conversation_context history ts))
  = (Some response_messages, ts') →
  ∃ result,
    run_agent agent user_message history tc ts = (inr result, ts')
    ∧ (∀ added, response_messages = lc_messages ++ added →
         new_messages result = _serialize_message <$> added)
    ∧ (length response_messages ≤ length lc_messages →
         new_messages result = []).
Proof.
  intros lc_messages Hinvoke. unfold run_agent. cbv zeta.
  fold lc_messages. rewrite Hinvoke. eexists. split; [done|]. cbn. split.
  - intros added ->. by rewrite drop_app_length.
  - intros Hlen. by rewrite drop_ge.
Qed.

(** X5.  Restoring a tool context into the store writes the slots whose
    value is not [None] and nothing else: a slot that is absent from the
    context, or [None] in it, keeps the value the store had, and the
    conversation handed to the tools is not touched. *)
Theorem restore_tool_context_lookup (tc : gmap string (option pyval))
    (ts : ToolsState) :
  conversation_context (restore_tool_context tc ts) = conversation_context ts
  ∧ ∀ key,
      get_tool_context key (restore_tool_context tc ts)
      = match tc !! key with
        | Some (Some value) => Some value
        | _ => get_tool_context key ts
        end.
Proof.
  unfold restore_tool_context, get_tool_context.
  apply (map_fold_weak_ind
           (λ r (m : gmap string (option pyval)),
              conversation_context r = conversation_context ts
              ∧ ∀ key, tool_store r !! key
                       = match m !! key with
                         | Some (Some value) => Some value
                         | _ => tool_store ts !! key
                         end)).
  - split; [done|]. intros key. by rewrite lookup_empty.
  - intros i x m r Hi [Hconv Hstore]. destruct x as [v|]; cbn.
    + split; [done|]. intros key. destruct (decide (i = key)) as [->|Hne].
      * by rewrite !lookup_insert_eq.
      * rewrite !lookup_insert_ne by done. apply Hstore.
    + split; [done|]. intros key. destruct (decide (i = key)) as [->|Hne].
      * rewrite lookup_insert_eq, Hstore. by rewrite Hi.
      * rewrite lookup_insert_ne by done. apply Hstore.
Qed.

(** X6.  The availability the tools left in the store at the end of a
    turn is what they find in it when the agent is next invoked with the
    snapshot of that turn, whatever happened to the store of the process
    in between; when it was [None] at the end of the turn, the snapshot
    restores nothing and the store keeps the value it has by then. *)
Theorem availability_survives_turns (agent : Agent) (user_message : string)
    (history : list Message) (tc : gmap string (option pyval))
    (ts ts_end : ToolsState) (result : AgentResult)
    (next_history : list Message) (ts_next : ToolsState) :
  run_agent agent user_message history tc ts = (inr result, ts_end) →
  get_tool_context "availability"
    (restore_tool_context (updated_tool_context result)
       (set_conversation_context next_history ts_next))
  = match get_tool_context "availability" ts_end with
    | Some value => Some value
    | None => get_tool_context "availability" ts_next
    end.
Proof.
  intros Hrun. apply run_agent_result in Hrun as (_ & _ & _ & _ & ->).
  unfold restore_tool_context. rewrite map_fold_singleton.
  destruct (get_tool_context "availability" ts_end) as [value|]; [|done].
  unfold get_tool_context, set_tool_context. cbn.
  by rewrite lookup_insert_eq.
Qed.

(** The outcome of a turn in which the agent returned, in terms of the
    reservation step. *)
Lemma chat_run (agent : Agent) (request : Request) (cookie : Session)
    (ts ts' : ToolsState) (result : AgentResult) :
  let user_message := Str.strip (default "" (message request)) in
  let history := default [] (messages cookie) ++ [user_message_dict user_message] in
  Str.nonempty user_message = true →
  run_agent agent user_message history (default ∅ (tool_context cookie)) ts
  = (inr result, ts') →
  let st1 := {| session := with_messages ((λ _, history) <$> messages cookie) cookie;
                modified := false; tools := ts' |} in
  let step := match reservation_json result with
              | Some payload => store_reservation payload st1
              | None => (inr (), st1)
              end in
  let clean_message := scrub (output result) in
  serve (chat (Some agent) request) cookie ts
  = match step with
    | (inl e, st2) =>
        ({| status := 500; body := ErrorOccurred e |},
         (if modified st2 then session st2 else cookie), tools st2)
    | (inr _, st2) =>
        ({| status := 200;
            body := ChatReply clean_message
                      (default [] (reservations (session st2))) |},
         {| messages := Some (history ++ [assistant_message_dict clean_message]);
            reservations := reservations (session st2);
            tool_context := Some (updated_tool_context result) |},
         tools st2)
    end.
Proof.
  intros user_message history Hne Hrun st1 step clean_message.
  unfold serve, chat, chat_try. fold user_message. rewrite Hne.
  cbn [negb]. unfold mbind, M_bind, bind, get_session, mutate, with_tools.
  cbn [session tools modified]. fold history. rewrite Hrun.
  fold st1. subst step.
  destruct (reservation_json result) as [payload|] eqn:Hpayload; [|done].
  rewrite (run_agent_payload_nonempty _ _ _ _ _ _ _ _ Hrun Hpayload).
  by destruct (store_reservation payload st1) as [[e|[]] st2].
Qed.

Lemma nonempty_true (s : string) : s ≠ "" → Str.nonempty s = true.
Proof. by destruct s. Qed.

(** The outcome of a turn in which the agent invocation raised. *)
Lemma chat_raise (agent : Agent) (request : Request) (cookie : Session)
    (ts ts' : ToolsState) (e : exn) :
  let user_message := Str.strip (default "" (message request)) in
  Str.nonempty user_message = true →
  run_agent agent user_message
    (default [] (messages cookie) ++ [user_message_dict user_message])
    (default ∅ (tool_context cookie)) ts = (inl e, ts') →
  serve (chat (Some agent) request) cookie ts
  = ({| status := 500; body := ErrorOccurred e |}, cookie, ts').
Proof.
  intros user_message Hne Hrun.
  unfold serve, chat, chat_try. fold user_message. rewrite Hne.
  cbn [negb]. unfold mbind, M_bind, bind, get_session, mutate, with_tools.
  cbn [session tools modified]. by rewrite Hrun.
Qed.

(** X7.  When the agent invocation raises, the turn answers 500 with
    that error and the session of the client stays the one it sent: the
    user message appended in memory is not written back.  The tool store
    stays as the failed invocation left it. *)
Theorem chat_agent_failure (agent : Agent) (request : Request)
    (cookie : Session) (ts ts' : ToolsState) (e : exn) :
  let user_message := Str.strip (default "" (message request)) in
  user_message ≠ "" →
  run_agent agent user_message
    (default [] (messages cookie) ++ [user_message_dict user_message])
    (default ∅ (tool_context cookie)) ts = (inl e, ts') →
  let r := serve (chat (Some agent) request) cookie ts in
  response_of r = {| status := 500; body := ErrorOccurred e |}
  ∧ session_of r = cookie
  ∧ r.2 = ts'.
Proof.
  intros user_message Hne Hrun r. subst r.
  by rewrite (chat_raise _ _ _ _ _ _ (nonempty_true _ Hne) Hrun).
Qed.

(** X8.  A turn in which no payload was extracted, or the payload is not
    valid JSON, succeeds: it answers 200 with the scrubbed reply and the
    reservations the session had, stores the transcript with the two new
    messages and the new tool context, and leaves the reservations as
    they were. *)
Theorem chat_without_valid_payload (agent : Agent) (request : Request)
    (cookie : Session) (ts ts' : ToolsState) (result : AgentResult) :
  let user_message := Str.strip (default "" (message request)) in
  let history := default [] (messages cookie) ++ [user_message_dict user_message] in
  user_message ≠ "" →
  run_agent agent user_message history (default ∅ (tool_context cookie)) ts
  = (inr result, ts') →
  (reservation_json result = None
   ∨ ∃ payload, reservation_json result = Some payload
                ∧ json_loads payload = None) →
  let r := serve (chat (Some agent) request) cookie ts in
  response_of r
  = {| status := 200;
       body := ChatReply (scrub (output result))
                 (default [] (reservations cookie)) |}
  ∧ session_of r
    = {| messages := Some (history ++ [assistant_message_dict (scrub (output result))]);
         reservations := reservations cookie;
         tool_context := Some (updated_tool_context result) |}.
Proof.
  intros user_message history Hne Hrun Hpayload r. subst r.
  rewrite (chat_run _ _ _ _ _ _ (nonempty_true _ Hne) Hrun).
  destruct Hpayload as [-> | (payload & -> & Hloads)]; [done|].
  unfold store_reservation, try_except, mbind, M_bind, bind, or_raise.
  by rewrite Hloads.
Qed.

(** X9.  A turn in which the payload parses to a reservation with an
    id, in a session whose reservations have ids: the turn answers 200,
    and the reservations stored and sent are those of the session when
    the id is already among them, and those followed by the new one
    otherwise. *)
Theorem chat_books_reservation (agent : Agent) (request : Request)
    (cookie : Session) (ts ts' : ToolsState) (result : AgentResult)
    (payload : string) (reservation reservation_id : pyval)
    (existing_ids : list pyval) :
  let user_message := Str.strip (default "" (message request)) in
  let history := default [] (messages cookie) ++ [user_message_dict user_message] in
  user_message ≠ "" →
  run_agent agent user_message history (default ∅ (tool_context cookie)) ts
  = (inr result, ts') →
  reservation_json result = Some payload →
  json_loads payload = Some reservation →
  getitem reservation "reservation_id" = Some reservation_id →
  mapM (λ r, getitem r "reservation_id") (default [] (reservations cookie))
  = Some existing_ids →
  let r := serve (chat (Some agent) request) cookie ts in
  let booked :=
    if existsb (λ e, py_eq e reservation_id) existing_ids
    then default [] (reservations cookie)
    else default [] (reservations cookie) ++ [reservation] in
  response_of r
  = {| status := 200; body := ChatReply (scrub (output result)) booked |}
  ∧ default [] (reservations (session_of r)) = booked
  ∧ messages (session_of r)
    = Some (history ++ [assistant_message_dict (scrub (output result))]).
Proof.
  intros user_message history Hne Hrun Hpayload Hloads Hid Hids r booked.
  subst r booked.
  rewrite (chat_run _ _ _ _ _ _ (nonempty_true _ Hne) Hrun), Hpayload.
  unfold store_reservation, try_except, mbind, M_bind, bind, or_raise, get_session.
  rewrite Hloads. cbn. rewrite Hids. cbn. rewrite Hid. cbn.
  by destruct (existsb _ existing_ids).
Qed.

End MoreProperties.


Section SessionProperties.

Context `{J : PyJSON}.

Lemma chat_status_nonblank (agent : option Agent) (request : Request)
    (cookie : Session) (ts : ToolsState) :
  Str.strip (default "" (message request)) ≠ "" →
  status (response_of (serve (chat agent request) cookie ts)) ≠ 400.
Proof.
  intros Hne. destruct agent as [a|]; [|done].
  destruct (run_agent a (Str.strip (default "" (message request)))
              (default [] (messages cookie)
               ++ [user_message_dict (Str.strip (default "" (message request)))])
              (default ∅ (tool_context cookie)) ts) as [[e|result] ts'] eqn:Hrun.
  - by rewrite (chat_raise _ _ _ _ _ _ (nonempty_true _ Hne) Hrun).
  - rewrite (chat_run _ _ _ _ _ _ (nonempty_true _ Hne) Hrun).
    by destruct (match reservation_json result with
                 | Some payload => store_reservation payload _
                 | None => _
                 end) as [[e|[]] st2].
Qed.

Lemma chat_status_blank (agent : Agent) (request : Request)
    (cookie : Session) (ts : ToolsState) :
  Str.strip (default "" (message request)) = "" →
  status (response_of (serve (chat (Some agent) request) cookie ts)) = 400.
Proof. intros Hblank. unfold serve, chat, chat_try. by rewrite Hblank. Qed.

(** X10.  With the agent in place, [/chat] answers 400 exactly for the
    requests whose message is missing or consists of white space only. *)
Theorem chat_400_iff_blank (agent : Agent) (request : Request)
    (cookie : Session) (ts : ToolsState) :
  status (response_of (serve (chat (Some agent) request) cookie ts)) = 400
  ↔ all_space (default "" (message request)) = true.
Proof.
  rewrite <- strip_empty. split.
  - intros H400.
    destruct (decide (Str.strip (default "" (message request)) = ""))
      as [|Hne]; [done|].
    by apply (chat_status_nonblank (Some agent) request cookie ts) in Hne.
  - apply chat_status_blank.
Qed.

(** X11.  A turn of [/chat] never removes or reorders a reservation: the
    reservations of the session before the turn are a prefix of those
    after it, and at most one is added. *)
Theorem chat_reservations_append_only (agent : option Agent)
    (request : Request) (cookie : Session) (ts : ToolsState) :
  let before := default [] (reservations cookie) in
  let after := default []
                 (reservations (session_of (serve (chat agent request) cookie ts))) in
  before `prefix_of` after ∧ length after ≤ S (length before).
Proof.
  intros before after. subst before after.
  destruct (chat_outcome agent request cookie ts)
    as [[-> _] | (_ & a & result & ts' & _ & _ & _ & _ & _ & Hres)].
  - split; [done | lia].
  - destruct Hres as [-> | (reservation & _ & ->)]; [split; [done | lia]|].
    cbn. split; [by apply prefix_app_r|]. rewrite length_app. cbn. lia.
Qed.

(** X12.  [/reservations] reads the list of the session, the empty list
    when the session has none, and writes nothing; read after a turn of
    [/chat] that answered 200, it returns the list that turn sent. *)
Theorem reservations_read_back (agent : option Agent) (request : Request)
    (cookie : Session) (ts ts2 : ToolsState) :
  serve (total get_reservations) cookie ts
  = ({| status := 200; body := Reservations (default [] (reservations cookie)) |},
     cookie, ts)
  ∧ ∀ reply sent,
      response_of (serve (chat agent request) cookie ts)
      = {| status := 200; body := ChatReply reply sent |} →
      response_of (serve (total get_reservations)
                     (session_of (serve (chat agent request) cookie ts)) ts2)
      = {| status := 200; body := Reservations sent |}.
Proof.
  split; [done|]. intros reply sent Hresp.
  destruct (chat_outcome agent request cookie ts)
    as [[_ Hne] | (_ & a & result & ts' & _ & _ & Hbody & _)].
  - by rewrite Hresp in Hne.
  - rewrite Hresp in Hbody. cbn in Hbody. injection Hbody as _ ->. done.
Qed.

(** X13.  [index] creates the keys the session lacks, empty, and keeps
    what the session has; a second visit changes nothing. *)
Theorem index_fills_missing_keys (cookie : Session) (ts ts2 : ToolsState) :
  let r := serve (total index) cookie ts in
  response_of r = {| status := 200; body := Page |}
  ∧ session_of r
    = {| messages := Some (default [] (messages cookie));
         reservations := Some (default [] (reservations cookie));
         tool_context := Some (default ∅ (tool_context cookie)) |}
  ∧ session_of (serve (total index) (session_of r) ts2) = session_of r.
Proof. by destruct cookie as [[?|] [?|] [?|]]. Qed.

Lemma transcript_of_cons (turn : string * string) (turns : list (string * string)) :
  transcript_of (turn :: turns)
  = user_message_dict turn.1 :: assistant_message_dict turn.2
      :: transcript_of turns.
Proof. done. Qed.

Lemma transcript_of_snoc (turns : list (string * string)) (u a : string) :
  transcript_of turns ++ [user_message_dict u; assistant_message_dict a]
  = transcript_of (turns ++ [(u, a)]).
Proof. unfold transcript_of. by rewrite bind_app. Qed.

(** The stored transcript is a list of turns. *)
Lemma reachable_transcript (s : Session) :
  reachable s →
  ∃ turns, default [] (messages s) = transcript_of turns
           ∧ Forall (λ turn, turn.1 ≠ "") turns.
Proof.
  induction 1 as [|h cookie ts Hcookie (turns & Hturns & Hne) Hh].
  - by exists [].
  - destruct Hh as [|agent request| |].
    + exists turns. split; [|done]. by destruct cookie as [[?|] [?|] [?|]].
    + destruct (chat_outcome agent request cookie ts)
        as [[-> _] | (H200 & a & result & ts' & -> & _ & _ & -> & _)];
        [by exists turns|].
      exists (turns ++ [(Str.strip (default "" (message request)),
                         scrub (output result))]).
      cbn. rewrite Hturns, <- app_assoc. cbn. split.
      * apply transcript_of_snoc.
      * apply Forall_app. split; [done|]. constructor; [|done]. cbn.
        intros Hblank.
        pose proof (chat_status_blank a request cookie ts Hblank) as H400.
        by rewrite H400 in H200.
    + by exists [].
    + by exists turns.
Qed.

Lemma transcript_of_roles (turns : list (string * string)) :
  Forall (λ msg, role msg = "user" ∨ role msg = "assistant")
    (transcript_of turns)
  ∧ length (transcript_of turns) = 2 * length turns.
Proof.
  induction turns as [|turn turns IH].
  - split; [constructor | done].
  - destruct IH as [IH1 IH2]. rewrite transcript_of_cons. split.
    + constructor; [by left|]. constructor; [by right | done].
    + cbn [length]. rewrite IH2. lia.
Qed.

(** X14.  In every session a client can hold, the transcript is made of
    whole turns: a user message with non-empty text followed by the
    assistant message stored for it.  So it has an even number of
    messages, all of role [user] or [assistant]: the tool messages and
    intermediate assistant messages of the agent are never stored. *)
Theorem reachable_transcript_turns (s : Session) :
  reachable s →
  ∃ turns,
    default [] (messages s) = transcript_of turns
    ∧ Forall (λ turn, turn.1 ≠ "") turns
    ∧ length (default [] (messages s)) = 2 * length turns
    ∧ Forall (λ msg, role msg = "user" ∨ role msg = "assistant")
        (default [] (messages s)).
Proof.
  intros (turns & Hturns & Hne)%reachable_transcript.
  exists turns. rewrite Hturns.
  destruct (transcript_of_roles turns) as [Hroles Hlen]. done.
Qed.

End SessionProperties.


Lemma to_lc_messages_length (l : list Message) :
  Forall (λ msg, is_Some (to_lc_message msg)) l →
  length (to_lc_messages l) = length l.
Proof.
  intros Hl. apply to_lc_messages_known in Hl.
  apply (f_equal length) in Hl. by rewrite !length_fmap in Hl.
Qed.

Lemma transcript_of_known (turns : list (string * string)) :
  Forall (λ msg, is_Some (to_lc_message msg)) (transcript_of turns).
Proof.
  induction turns as [|turn turns IH]; [constructor|].
  rewrite transcript_of_cons. by repeat constructor.
Qed.

Lemma transcript_of_lookup_odd (turns : list (string * string)) (i : nat) :
  transcript_of turns !! (2 * i + 1)
  = (λ turn, assistant_message_dict turn.2) <$> turns !! i.
Proof.
  revert i. induction turns as [|turn turns IH]; intros i; [done|].
  rewrite transcript_of_cons. destruct i as [|i]; [done|].
  replace (2 * S i + 1) with (S (S (2 * i + 1))) by lia. apply IH.
Qed.

Lemma trim_history_snoc (l : list Message) (x : Message) :
  ∃ window, trim_history (l ++ [x]) = window ++ [x].
Proof.
  unfold trim_history, MAX_HISTORY_MESSAGES. case_bool_decide as Hlen.
  - rewrite length_app in *. cbn in *.
    exists (drop (length l + 1 - 12) l). apply drop_app_le. lia.
  - by exists l.
Qed.

(** X15.  What the agent receives in a turn on a transcript of whole
    turns: every message of the window, none dropped (12 of them, or the
    whole history when it is shorter), the last one being the user
    message of this turn.  From the sixth stored turn on the window opens
    with an assistant message: the user message it answered is cut off. *)
Theorem agent_input_of_transcript (turns : list (string * string))
    (user_message : string) :
  let history := transcript_of turns ++ [user_message_dict user_message] in
  let lc_messages := to_lc_messages (trim_history history) in
  length lc_messages = length history `min` 12
  ∧ last lc_messages = Some (HumanMessage user_message)
  ∧ (6 ≤ length turns → ∃ reply, head lc_messages = Some (AIMessage reply)).
Proof.
  intros history lc_messages.
  assert (Hknown : Forall (λ msg, is_Some (to_lc_message msg)) history).
  { apply Forall_app. split; [apply transcript_of_known|].
    by repeat constructor. }
  assert (Hlen : length history = 2 * length turns + 1).
  { unfold history. rewrite length_app.
    destruct (transcript_of_roles turns) as [_ ->]. cbn. lia. }
  split; [|split].
  - unfold lc_messages, trim_history, MAX_HISTORY_MESSAGES.
    case_bool_decide as H12.
    + rewrite to_lc_messages_length by by apply Forall_drop.
      rewrite length_drop. lia.
    + rewrite to_lc_messages_length by done. lia.
  - unfold lc_messages, history.
    destruct (trim_history_snoc (transcript_of turns)
                (user_message_dict user_message)) as [window ->].
    rewrite to_lc_messages_app.
    change (to_lc_messages [user_message_dict user_message])
      with [HumanMessage user_message].
    apply last_snoc.
  - intros H6. unfold lc_messages, trim_history, MAX_HISTORY_MESSAGES.
    rewrite bool_decide_eq_true_2 by lia. rewrite Hlen.
    replace (2 * length turns + 1 - 12) with (2 * (length turns - 6) + 1) by lia.
    destruct (lookup_lt_is_Some_2 turns (length turns - 6)) as [turn Hturn];
      [lia|].
    assert (Hmsg : history !! (2 * (length turns - 6) + 1)
                   = Some (assistant_message_dict turn.2)).
    { unfold history. rewrite lookup_app_l.
      - by rewrite transcript_of_lookup_odd, Hturn.
      - destruct (transcript_of_roles turns) as [_ ->]. lia. }
    rewrite (drop_S _ _ _ Hmsg). cbn. by exists turn.2.
Qed.

Section ReservationIds.

Context `{J : PyJSON}.

Lemma existsb_false {A} (f : A → bool) (l : list A) (x : A) :
  existsb f l = false → x ∈ l → f x = false.
Proof.
  induction l as [|y l IH]; cbn; [by intros _ ?%elem_of_nil|].
  intros [Hy Hl]%orb_false_elim [->|Hx]%elem_of_cons; [done | by apply IH].
Qed.

(** What a turn does to the reservations: nothing, or it adds one whose
    id equals none of the ids stored. *)
Lemma chat_reservations_cases (agent : option Agent) (request : Request)
    (cookie : Session) (ts : ToolsState) :
  let after := reservations (session_of (serve (chat agent request) cookie ts)) in
  after = reservations cookie
  ∨ ∃ reservation reservation_id existing_ids,
      mapM (λ r, getitem r "reservation_id") (default [] (reservations cookie))
      = Some existing_ids
      ∧ getitem reservation "reservation_id" = Some reservation_id
      ∧ existsb (λ e, py_eq e reservation_id) existing_ids = false
      ∧ after = Some (default [] (reservations cookie) ++ [reservation]).
Proof.
  intros after. subst after. destruct agent as [a|]; [|by left].
  destruct (decide (Str.strip (default "" (message request)) = ""))
    as [Hblank|Hne].
  { left. unfold serve, chat, chat_try. by rewrite Hblank. }
  destruct (run_agent a (Str.strip (default "" (message request)))
              (default [] (messages cookie)
               ++ [user_message_dict (Str.strip (default "" (message request)))])
              (default ∅ (tool_context cookie)) ts) as [[e|result] ts'] eqn:Hrun.
  { left. by rewrite (chat_raise _ _ _ _ _ _ (nonempty_true _ Hne) Hrun). }
  rewrite (chat_run _ _ _ _ _ _ (nonempty_true _ Hne) Hrun).
  destruct (reservation_json result) as [payload|]; [|by left].
  unfold store_reservation, try_except, mbind, M_bind, bind, or_raise, get_session.
  destruct (json_loads payload) as [reservation|]; cbn; [|by left].
  destruct (mapM _ _) as [ids|] eqn:Hids; cbn; [|by left].
  destruct (getitem reservation _) as [rid|] eqn:Hid; cbn; [|by left].
  destruct (existsb _ ids) eqn:Hdup; cbn; [by left|].
  right. by exists reservation, rid, ids.
Qed.

(** X16.  In every session a client can hold, the ids of the reservations
    are pairwise different: no id stored equals, by [==], one stored
    before it. *)
Theorem reachable_reservation_ids_distinct (s : Session)
    (ids : list pyval) (i j : nat) (a b : pyval) :
  reachable s →
  mapM (λ r, getitem r "reservation_id") (default [] (reservations s)) = Some ids →
  i < j → ids !! i = Some a → ids !! j = Some b →
  py_eq a b = false.
Proof.
  intros Hs. revert ids i j a b.
  induction Hs as [|h cookie ts Hcookie IH Hh]; intros ids i j a b.
  { cbn. by intros [= <-]. }
  destruct Hh as [|agent request| |].
  - replace (default [] (reservations (session_of (serve (total index) cookie ts))))
      with (default [] (reservations cookie))
      by by destruct cookie as [[?|] [?|] [?|]].
    apply IH.
  - destruct (chat_reservations_cases agent request cookie ts)
      as [-> | (reservation & rid & old_ids & Hold & Hid & Hdup & ->)];
      [apply IH|].
    cbn. intros Hids Hij Ha Hb.
    apply mapM_Some in Hids. apply Forall2_app_inv_l in Hids
      as (k1 & k2 & Hk1 & Hk2 & ->).
    apply mapM_Some in Hk1. rewrite Hold in Hk1. injection Hk1 as <-.
    apply Forall2_cons_inv_l in Hk2 as (rid' & k3 & Hrid' & Hk3 & ->).
    apply Forall2_nil_inv_l in Hk3 as ->.
    rewrite Hid in Hrid'. injection Hrid' as <-.
    destruct (decide (j < length old_ids)) as [Hj|Hj].
    + rewrite lookup_app_l in Ha by lia. rewrite lookup_app_l in Hb by done.
      by apply (IH old_ids i j).
    + apply lookup_lt_Some in Hb as Hjlen. rewrite length_app in Hjlen.
      cbn in Hjlen. assert (j = length old_ids) as -> by lia.
      rewrite lookup_app_l in Ha by done.
      rewrite list_lookup_middle in Hb by done. injection Hb as <-.
      apply (existsb_false _ _ a Hdup). by eapply list_elem_of_lookup_2.
  - cbn. intros [= <-]. by rewrite lookup_nil.
  - apply IH.
Qed.

(** X17.  Without an API key in the environment, unset or empty, the
    agent is not created: every request to [/chat] is answered 500 with
    the fixed error and leaves the session and the tool store as they
    were, while [/health] still answers 200 and reports the agent
    missing.  With a key, the agent is the one the framework built. *)
Theorem no_api_key_no_agent (environ : gmap string string)
    (framework : option Agent) :
  (default "" (environ !! "OPENAI_API_KEY") = "" →
     initial_agent environ framework = None
     ∧ (∀ request cookie ts,
          serve (chat (initial_agent environ framework) request) cookie ts
          = ({| status := 500;
                body := Error "Agent not initialized. Please check your configuration." |},
             cookie, ts))
     ∧ ∀ now st,
         health (initial_agent environ framework) now st
         = ((200, {| health_status := "healthy"; agent_initialized := false;
                     timestamp := now |}), st))
  ∧ (default "" (environ !! "OPENAI_API_KEY") ≠ "" →
       initial_agent environ framework = framework).
Proof.
  unfold initial_agent, create_bitebot_agent. split.
  - intros ->. cbn. done.
  - intros Hkey. rewrite (nonempty_true _ Hkey). cbn. by destruct framework.
Qed.

End ReservationIds.


(** ** The shape of the payload and the removal of a sentinel line *)

Lemma chars_app (x y : string) : chars (x +:+ y) = chars x ++ chars y.
Proof.
  induction x as [|a x IH]; [done|].
  change (a :: chars (x +:+ y) = a :: chars x ++ chars y). by rewrite IH.
Qed.

Lemma chars_inj (x y : string) : chars x = chars y → x = y.
Proof.
  revert y. induction x as [|a x IH]; intros [|b y]; try done.
  cbn. intros [= -> Hxy]. by rewrite (IH y Hxy).
Qed.

Lemma str_app_assoc (x y z : string) : (x +:+ y) +:+ z = x +:+ (y +:+ z).
Proof. apply chars_inj. by rewrite !chars_app, app_assoc. Qed.

Lemma str_length_chars (x : string) : String.length x = length (chars x).
Proof. induction x as [|a x IH]; [done|]. cbn. by rewrite IH. Qed.

Lemma str_take_app (x y : string) : Str.take (String.length x) (x +:+ y) = x.
Proof.
  induction x as [|a x IH]; [by destruct y|].
  change (String a (Str.take (String.length x) (x +:+ y)) = String a x).
  by rewrite IH.
Qed.

Lemma str_drop_app (x y : string) : Str.drop (String.length x) (x +:+ y) = y.
Proof. induction x as [|a x IH]; [by destruct y|]. apply IH. Qed.

Lemma search_suffix (r : Re.regex) (s suffix : string) (m : nat * Re.regs) :
  Re.search r s = Some (suffix, m) →
  ∃ before, s = before +:+ suffix ∧ Re.match_ r suffix = Some m.
Proof.
  induction s as [|a s IH]; cbn [Re.search].
  - destruct (Re.match_ r "") eqn:Hm; [|done]. intros [= <- <-]. by exists "".
  - destruct (Re.match_ r (String a s)) eqn:Hm.
    + intros [= <- <-]. by exists "".
    + intros (before & -> & Hs)%IH. by exists (String a before).
Qed.

(** What a greedy star took was accepted by its class. *)
Lemma run_star_taken (c : Re.cclass) (r : Re.regex) (s : string) (pos : nat)
    (g : Re.regs) (m : nat * Re.regs) :
  Re.run (Re.Star c :: r) s pos g = Some m →
  ∃ taken rest,
    s = taken +:+ rest
    ∧ Forall (λ a, Re.accepts c a = true) (chars taken)
    ∧ Re.run r rest (pos + String.length taken) g = Some m.
Proof.
  revert pos. induction s as [|a s IH]; intros pos; rewrite run_star_unfold.
  - intros Hm. exists "", "". by rewrite Nat.add_0_r.
  - destruct (Re.accepts c a) eqn:Ha.
    + destruct (Re.run (Re.Star c :: r) s (S pos) g) as [m'|] eqn:Hs.
      * intros [= ->]. destruct (IH _ Hs) as (taken & rest & -> & Htaken & Hr).
        exists (String a taken), rest. split; [done|]. split; [by constructor|].
        cbn. by rewrite Nat.add_succ_r.
      * intros Hm. exists "", (String a s). by rewrite Nat.add_0_r.
    + intros Hm. exists "", (String a s). by rewrite Nat.add_0_r.
Qed.

(** The payload a tool message offers stands in its content right after
    the sentinel text, opens with a brace, closes with a brace and holds
    no newline. *)
Lemma sentinel_payload_shape (msg : LCMessage) (payload : string) :
  sentinel_payload msg = Some payload →
  ∃ c n i before body after,
    msg = ToolMessage c n i
    ∧ c = before +:+ sentinel_prefix +:+ payload +:+ after
    ∧ payload = "{" +:+ body +:+ "}"
    ∧ Forall (λ a, a ≠ Re.newline) (chars body).
Proof.
  destruct msg as [|c|c n i|]; try done. cbn [sentinel_payload].
  unfold Re.search_group1.
  destruct (Re.search reservation_pattern c) as [[suffix m]|] eqn:Hs; [|done].
  apply search_suffix in Hs as (before & -> & Hs).
  unfold Re.match_, reservation_pattern in Hs.
  apply run_lit in Hs as (s' & -> & Hs).
  change (0 + String.length sentinel_prefix) with 43 in Hs.
  rewrite run_group_open, run_one_unfold in Hs.
  destruct s' as [|a s']; [done|].
  unfold Re.accepts at 1 in Hs. case_bool_decide as Ha; [subst a|done].
  apply run_star_taken in Hs as (body & rest & -> & Hbody & Hs).
  rewrite run_one_unfold in Hs. destruct rest as [|b after]; [done|].
  unfold Re.accepts at 1 in Hs. case_bool_decide as Hb; [subst b|done].
  rewrite run_group_close in Hs. cbn in Hs. injection Hs as <-.
  unfold Re.group1. cbn [snd]. intros Hp. apply (inj Some) in Hp.
  subst payload.
  match goal with
  | |- context [Str.take ?k (Str.drop ?d ?s)] =>
      assert (Hpayload : Str.take k (Str.drop d s) = "{" +:+ body +:+ "}")
  end.
  { change (Str.drop 43 (sentinel_prefix +:+ ?x)) with x.
    match goal with
    | |- Str.take ?k _ = _ =>
        replace k with (S (String.length (body +:+ "}")))
          by (rewrite (str_length_chars (body +:+ "}")), chars_app, length_app,
                <- str_length_chars; cbn; lia)
    end.
    cbn [Str.take].
    replace (body +:+ String "}" after) with ((body +:+ "}") +:+ after)
      by by rewrite str_app_assoc.
    by rewrite str_take_app. }
  eexists _, n, i, before, body, after. rewrite Hpayload.
  split; [done|]. split.
  - by rewrite !str_app_assoc.
  - split; [done|].
    eapply Forall_impl; [exact Hbody|]. cbn. intros a Ha.
    by case_bool_decide.
Qed.

Lemma scan_reservation_source (acc : option string) (msgs : list LCMessage)
    (payload : string) :
  scan_reservation acc msgs = Some payload →
  acc = Some payload ∨ ∃ msg, msg ∈ msgs ∧ sentinel_payload msg = Some payload.
Proof.
  revert acc. induction msgs as [|msg msgs IH]; intros acc; cbn; [by left|].
  destruct (sentinel_payload msg) as [p|] eqn:Hp.
  - intros [[= ->] | (m & Hm & Hpm)]%IH; right.
    + exists msg. split; [by left | done].
    + exists m. split; [by right | done].
  - intros [-> | (m & Hm & Hpm)]%IH; [by left|]. right.
    exists m. split; [by right | done].
Qed.

(** X18.  A payload extracted from a response is taken from one of its
    tool messages, whose content holds it right after the sentinel text;
    it opens with a brace, closes with a brace and lies on one line. *)
Theorem extract_reservation_shape (msgs : list LCMessage) (payload : string) :
  extract_reservation msgs = Some payload →
  ∃ c n i before body after,
    ToolMessage c n i ∈ msgs
    ∧ c = before +:+ sentinel_prefix +:+ payload +:+ after
    ∧ payload = "{" +:+ body +:+ "}"
    ∧ Forall (λ a, a ≠ Re.newline) (chars body).
Proof.
  intros [? | (msg & Hmsg & Hp)]%scan_reservation_source; [done|].
  apply sentinel_payload_shape in Hp
    as (c & n & i & before & body & after & -> & Hc & Hp & Hbody).
  by exists c, n, i, before, body, after.
Qed.


Lemma str_app_empty_r (x : string) : x +:+ "" = x.
Proof. apply chars_inj. by rewrite chars_app, app_nil_r. Qed.

Lemma str_length_app (x y : string) :
  String.length (x +:+ y) = String.length x + String.length y.
Proof. by rewrite !str_length_chars, chars_app, length_app. Qed.

Lemma newlines_length (n : nat) : String.length (newlines n) = n.
Proof. induction n as [|n IH]; [done|]. cbn. by rewrite IH. Qed.

(** A literal matches the text of itself. *)
Lemma run_lit_match (p : string) (r : Re.regex) (x : string) (pos : nat)
    (g : Re.regs) :
  Re.run (Re.lit p ++ r) (p +:+ x) pos g
  = Re.run r x (pos + String.length p) g.
Proof.
  revert pos. induction p as [|a p IH]; intros pos.
  - cbn [Re.lit app String.length]. by rewrite Nat.add_0_r.
  - change (Re.lit (String a p) ++ r)
      with (Re.One (Re.Chr a) :: (Re.lit p ++ r)).
    change (String a p +:+ x) with (String a (p +:+ x)).
    rewrite run_one_unfold. unfold Re.accepts.
    rewrite bool_decide_eq_true_2 by done. rewrite IH. f_equal.
    cbn [String.length]. lia.
Qed.

(** A greedy star of the newline takes a whole run of newlines when the
    rest of the pattern matches after it. *)
Lemma run_star_newlines (r : Re.regex) (k : nat) (rest : string) (pos : nat)
    (g : Re.regs) (m : nat * Re.regs) :
  match rest with
  | String a _ => a ≠ Re.newline
  | EmptyString => True
  end →
  Re.run r rest (pos + k) g = Some m →
  Re.run (Re.Star (Re.Chr Re.newline) :: r) (newlines k +:+ rest) pos g = Some m.
Proof.
  intros Hrest. revert pos. induction k as [|k IH]; intros pos Hm.
  - rewrite Nat.add_0_r in Hm. cbn [newlines]. rewrite run_star_unfold.
    change ("" +:+ rest) with rest. destruct rest as [|a rest]; [done|].
    unfold Re.accepts. by rewrite bool_decide_eq_false_2.
  - change (newlines (S k) +:+ rest)
      with (String Re.newline (newlines k +:+ rest)).
    rewrite run_star_unfold. unfold Re.accepts.
    rewrite bool_decide_eq_true_2 by done.
    rewrite (IH (S pos)); [done|].
    by replace (S pos + k) with (pos + S k) by lia.
Qed.

Lemma run_star_lazy_unfold (c : Re.cclass) (r : Re.regex) (s : string)
    (pos : nat) (g : Re.regs) :
  Re.run (Re.StarLazy c :: r) s pos g
  = match Re.run r s pos g with
    | Some m => Some m
    | None =>
        match s with
        | String a s' =>
            if Re.accepts c a then Re.run (Re.StarLazy c :: r) s' (S pos) g
            else None
        | EmptyString => None
        end
    end.
Proof. by destruct s. Qed.

(** The lazy star before the closing brace runs to the first brace. *)
Lemma run_lazy_body (r : Re.regex) (body y : string) (pos : nat)
    (g : Re.regs) (m : nat * Re.regs) :
  Forall (λ a, a ≠ Re.newline ∧ a ≠ "}"%char) (chars body) →
  Re.run r y (S (pos + String.length body)) g = Some m →
  Re.run (Re.StarLazy Re.Dot :: Re.One (Re.Chr "}") :: r)
    (body +:+ String "}" y) pos g = Some m.
Proof.
  revert pos. induction body as [|a body IH]; intros pos Hbody Hm.
  - cbn [String.length] in Hm. rewrite Nat.add_0_r in Hm.
    change ("" +:+ String "}" y) with (String "}" y).
    rewrite run_star_lazy_unfold, run_one_unfold. unfold Re.accepts.
    rewrite bool_decide_eq_true_2 by done. by rewrite Hm.
  - change (String a body +:+ String "}" y)
      with (String a (body +:+ String "}" y)).
    cbn [chars] in Hbody. apply Forall_cons in Hbody as [[Hnl Hbrace] Hbody].
    rewrite run_star_lazy_unfold, run_one_unfold. unfold Re.accepts.
    rewrite (bool_decide_eq_false_2 (a = "}"%char)) by done.
    rewrite bool_decide_eq_true_2 by done.
    apply IH; [done|]. cbn [String.length] in Hm.
    by replace (S pos + String.length body)
      with (pos + S (String.length body)) by lia.
Qed.

Lemma scrub_pattern_eq :
  scrub_pattern
  = Re.Star (Re.Chr Re.newline)
      :: (Re.lit sentinel_prefix
          ++ [Re.One (Re.Chr "{"); Re.StarLazy Re.Dot; Re.One (Re.Chr "}");
              Re.Star (Re.Chr Re.newline)]).
Proof. done. Qed.

(** The pattern matches a whole sentinel line: the newlines before it,
    the sentinel text, the braces with what they hold, the newlines
    after it, up to the first character that is not a newline. *)
Lemma match_sentinel_line (k m : nat) (body rest : string) :
  Forall (λ a, a ≠ Re.newline ∧ a ≠ "}"%char) (chars body) →
  match rest with
  | String a _ => a ≠ Re.newline
  | EmptyString => True
  end →
  Re.match_len scrub_pattern (sentinel_line k body m +:+ rest)
  = Some (String.length (sentinel_line k body m)).
Proof.
  intros Hbody Hrest. unfold Re.match_len, Re.match_, sentinel_line.
  rewrite scrub_pattern_eq, !str_app_assoc.
  erewrite (run_star_newlines _ k _ 0); [|done|].
  2:{ rewrite run_lit_match.
      change ("{" +:+ body +:+ "}" +:+ newlines m +:+ rest)
        with (String "{" (body +:+ String "}" (newlines m +:+ rest))).
      rewrite run_one_unfold. unfold Re.accepts at 1.
      rewrite bool_decide_eq_true_2 by done.
      apply run_lazy_body; [done|].
      apply run_star_newlines; [done|]. reflexivity. }
  cbn [fmap option_fmap option_map fst]. f_equal.
  rewrite !str_length_app, !newlines_length. cbn [String.length]. lia.
Qed.

Lemma sentinel_line_nonempty (k m : nat) (body : string) :
  ∃ a line, sentinel_line k body m = String a line.
Proof. destruct k as [|k]; by eexists _, _. Qed.

(** A sentinel line at the head of a reply is removed, and the scan goes
    on after it. *)
Lemma scrub_sentinel_line (k m : nat) (body rest : string) :
  Forall (λ a, a ≠ Re.newline ∧ a ≠ "}"%char) (chars body) →
  match rest with
  | String a _ => a ≠ Re.newline
  | EmptyString => True
  end →
  scrub (sentinel_line k body m +:+ rest) = scrub rest.
Proof.
  intros Hbody Hrest. unfold scrub.
  pose proof (match_sentinel_line k m body rest Hbody Hrest) as Hm.
  destruct (sentinel_line_nonempty k m body) as (a & line & Hline).
  rewrite Hline in *.
  change (String a line +:+ rest) with (String a (line +:+ rest)) in *.
  rewrite remove_all_step, Hm. cbn [String.length].
  by rewrite str_drop_app.
Qed.

Lemma str_prefix_app (p s : string) : String.prefix p (p +:+ s) = true.
Proof.
  induction p as [|a p IH]; [by destruct s|].
  change (String a p +:+ s) with (String a (p +:+ s)). cbn [String.prefix].
  by destruct (Ascii.ascii_dec a a).
Qed.

(** Where no sentinel text starts within [text], and [text] does not end
    in a newline, the pattern does not match at the head of [text]
    followed by anything. *)
Lemma no_match_before_sentinel (text rest : string) :
  text ≠ "" →
  last (chars text) ≠ Some Re.newline →
  (∀ j, j < String.length text →
        String.prefix sentinel_prefix (Str.drop j (text +:+ rest)) = false) →
  Re.match_len scrub_pattern (text +:+ rest) = None.
Proof.
  intros Hne Hlast Hfree. unfold Re.match_len, Re.match_.
  destruct (Re.run scrub_pattern (text +:+ rest) 0 (None, None))
    as [m|] eqn:Hrun; [exfalso|done].
  rewrite scrub_pattern_eq in Hrun.
  apply run_star_taken in Hrun as (taken & after & Hsplit & Htaken & Hrun).
  apply run_lit in Hrun as (s' & -> & _).
  assert (Hlen : String.length taken < String.length text).
  { destruct (decide (String.length taken < String.length text)) as [|Hge];
      [done|exfalso].
    apply (f_equal chars) in Hsplit. rewrite !chars_app in Hsplit.
    rewrite !str_length_chars in Hge.
    assert (Hpre : chars text `prefix_of` chars taken).
    { apply app_eq_inv in Hsplit as [(more & Hmore & _) | (more & Hmore & _)].
      - pose proof (f_equal length Hmore) as Hl. rewrite length_app in Hl.
        destruct more as [|b more]; [|cbn in Hl; lia].
        rewrite app_nil_r in Hmore. by rewrite Hmore.
      - by exists more. }
    destruct Hpre as [more Hmore]. rewrite Hmore in Htaken.
    apply Forall_app in Htaken as [Htext _].
    assert (Hsome : is_Some (last (chars text)))
      by (apply last_is_Some; by destruct text).
    destruct Hsome as [a Ha]. apply Hlast. rewrite Ha. f_equal.
    apply last_Some in Ha as [l Hl]. rewrite Hl in Htext.
    apply Forall_app in Htext as [_ Hnl]. apply Forall_inv in Hnl.
    by apply bool_decide_eq_true_1 in Hnl. }
  specialize (Hfree _ Hlen). rewrite Hsplit, str_drop_app in Hfree.
  by rewrite str_prefix_app in Hfree.
Qed.

(** X19.  A reply made of a text, a sentinel line and a rest, where the
    line is the sentinel text and a brace pair holding neither a newline
    nor a closing brace, with the newlines around it: when no sentinel
    text starts within the text before the line, and that text does not
    end in a newline nor the rest start with one, scrubbing removes the
    line with its newlines, keeps the text as it is and goes on with the
    rest.  So a reply that ends in its only sentinel line is scrubbed to
    the text before it. *)
Theorem scrub_removes_sentinel_line (text body rest : string) (k m : nat) :
  Forall (λ a, a ≠ Re.newline ∧ a ≠ "}"%char) (chars body) →
  last (chars text) ≠ Some Re.newline →
  match rest with
  | String a _ => a ≠ Re.newline
  | EmptyString => True
  end →
  (∀ j, j < String.length text →
        String.prefix sentinel_prefix
          (Str.drop j (text +:+ sentinel_line k body m +:+ rest)) = false) →
  scrub (text +:+ sentinel_line k body m +:+ rest) = text +:+ scrub rest.
Proof.
  intros Hbody Hlast Hrest Hfree.
  induction text as [|a text IH].
  - by apply scrub_sentinel_line.
  - change (String a text +:+ ?x) with (String a (text +:+ x)).
    unfold scrub in *. rewrite remove_all_step.
    change (String a (text +:+ ?x)) with (String a text +:+ x).
    rewrite (no_match_before_sentinel (String a text)); [|done..].
    change (String a text +:+ ?x) with (String a (text +:+ x)). f_equal.
    apply IH.
    + destruct text as [|b text]; [done | exact Hlast].
    + intros j Hj. apply (Hfree (S j)). cbn [String.length]. lia.
Qed.

(** ** The reply extracted and the turn as a whole *)

(** X20.  The reply [run_agent] extracts is the content of the last
    assistant message of the response that has content, whatever follows
    it; where no assistant message has content it is the empty string. *)
Theorem extract_output_is_last_reply (msgs : list LCMessage) :
  (∀ before c after,
      msgs = before ++ AIMessage c :: after →
      c ≠ "" →
      Forall (λ m, ∀ c', m = AIMessage c' → c' = "") after →
      extract_output msgs = c)
  ∧ (Forall (λ m, ∀ c, m = AIMessage c → c = "") msgs →
     extract_output msgs = "").
Proof.
  split.
  - intros before c after -> Hc Hafter. unfold extract_output.
    rewrite rev_app_distr. cbn [rev]. rewrite <- app_assoc.
    rewrite first_reply_skip by by apply Forall_rev.
    cbn. by destruct c.
  - intros Hmsgs. unfold extract_output.
    rewrite <- (app_nil_r (rev msgs)).
    by rewrite first_reply_skip by by apply Forall_rev.
Qed.

Section WholeTurn.

Context `{J : PyJSON}.

(** X21.  A turn of [/chat] is stored whole or not at all.  Any answer
    other than 200 leaves the session of the client as it was.  An
    answer of 200 carries a reply and the reservations of the session as
    stored, and the transcript stored is the whole transcript the client
    sent, however long, followed by the user message and that reply: the
    window cut for the agent does not shorten what is kept. *)
Theorem chat_turn_all_or_nothing (agent : option Agent) (request : Request)
    (cookie : Session) (ts : ToolsState) :
  let r := serve (chat agent request) cookie ts in
  let user_message := Str.strip (default "" (message request)) in
  (status (response_of r) ≠ 200 → session_of r = cookie)
  ∧ (status (response_of r) = 200 →
     ∃ reply,
       body (response_of r)
       = ChatReply reply (default [] (reservations (session_of r)))
       ∧ messages (session_of r)
         = Some (default [] (messages cookie)
                 ++ [user_message_dict user_message;
                     assistant_message_dict reply])).
Proof.
  intros r user_message. subst r.
  destruct (chat_outcome agent request cookie ts)
    as [[Hsame Hne] | (H200 & a & result & ts' & _ & _ & Hbody & Hmsgs & _)].
  - split; [done|]. by intros H200.
  - split; [by intros Hne|]. intros _. exists (scrub (output result)).
    split; [done|]. by rewrite Hmsgs, <- app_assoc.
Qed.

End WholeTurn.

(** ** The payload runs to the last closing brace of its line *)

(** Without a closing brace before the end of the line the greedy star
    finds no place to stop. *)
Lemma run_greedy_no_brace (r : Re.regex) (t1 t2 : string) (pos : nat)
    (g : Re.regs) :
  Forall (λ a, a ≠ Re.newline ∧ a ≠ "}"%char) (chars t1) →
  match t2 with
  | String a _ => a = Re.newline
  | EmptyString => True
  end →
  Re.run (Re.Star Re.Dot :: Re.One (Re.Chr "}") :: r) (t1 +:+ t2) pos g = None.
Proof.
  revert pos. induction t1 as [|a t1 IH]; intros pos Ht1 Ht2.
  - change ("" +:+ t2) with t2. rewrite run_star_unfold.
    destruct t2 as [|a t2]; [done|]. subst a.
    unfold Re.accepts at 1. rewrite bool_decide_eq_false_2 by by intros [].
    done.
  - change (String a t1 +:+ t2) with (String a (t1 +:+ t2)).
    cbn [chars] in Ht1. apply Forall_cons in Ht1 as [[Hnl Hbrace] Ht1].
    rewrite run_star_unfold. unfold Re.accepts at 1.
    rewrite bool_decide_eq_true_2 by done. rewrite IH by done.
    rewrite run_one_unfold. unfold Re.accepts.
    by rewrite bool_decide_eq_false_2.
Qed.

(** The greedy star before the closing brace runs to the last brace of
    the line. *)
Lemma run_greedy_last_brace (r : Re.regex) (inner t1 t2 : string) (pos : nat)
    (g : Re.regs) (m : nat * Re.regs) :
  Forall (λ a, a ≠ Re.newline) (chars inner) →
  Forall (λ a, a ≠ Re.newline ∧ a ≠ "}"%char) (chars t1) →
  match t2 with
  | String a _ => a = Re.newline
  | EmptyString => True
  end →
  Re.run r (t1 +:+ t2) (S (pos + String.length inner)) g = Some m →
  Re.run (Re.Star Re.Dot :: Re.One (Re.Chr "}") :: r)
    (inner +:+ String "}" (t1 +:+ t2)) pos g = Some m.
Proof.
  revert pos. induction inner as [|a inner IH]; intros pos Hinner Ht1 Ht2 Hm.
  - cbn [String.length] in Hm. rewrite Nat.add_0_r in Hm.
    change ("" +:+ String "}" (t1 +:+ t2)) with (String "}" (t1 +:+ t2)).
    rewrite run_star_unfold. unfold Re.accepts at 1.
    rewrite bool_decide_eq_true_2 by done.
    rewrite run_greedy_no_brace by done.
    rewrite run_one_unfold. unfold Re.accepts.
    by rewrite bool_decide_eq_true_2.
  - change (String a inner +:+ String "}" (t1 +:+ t2))
      with (String a (inner +:+ String "}" (t1 +:+ t2))).
    cbn [chars] in Hinner. apply Forall_cons in Hinner as [Hnl Hinner].
    rewrite run_star_unfold. unfold Re.accepts at 1.
    rewrite bool_decide_eq_true_2 by done.
    rewrite (IH (S pos)); [done..|].
    cbn [String.length] in Hm.
    by replace (S pos + String.length inner)
      with (pos + S (String.length inner)) by lia.
Qed.

(** The search passes over the positions where no sentinel text
    starts. *)
Lemma search_skip (r : Re.regex) (before s : string) :
  (∀ j, j < String.length before →
        String.prefix sentinel_prefix (Str.drop j (before +:+ s)) = false) →
  Re.search (Re.lit sentinel_prefix ++ r) (before +:+ s)
  = Re.search (Re.lit sentinel_prefix ++ r) s.
Proof.
  induction before as [|a before IH]; intros Hfree; [done|].
  change (String a before +:+ s) with (String a (before +:+ s)).
  cbn [Re.search].
  destruct (Re.match_ _ (String a (before +:+ s))) as [m|] eqn:Hm.
  - apply run_lit in Hm as (s' & Hs' & _).
    specialize (Hfree 0). cbn [String.length Str.drop] in Hfree.
    change (String a before +:+ s) with (String a (before +:+ s)) in Hfree.
    rewrite Hs', str_prefix_app in Hfree.
    discriminate Hfree. lia.
  - apply IH. intros j Hj. apply (Hfree (S j)). cbn [String.length]. lia.
Qed.

(** X22.  The content of a tool message in which the first sentinel text
    is followed by a brace pair on one line: the payload extracted is
    the text from the opening brace to the last closing brace of that
    line, even when braces close before it. *)
Theorem sentinel_payload_to_last_brace (before inner t1 t2 : string)
    (n i : string) :
  let c := before +:+ sentinel_prefix +:+ "{" +:+ inner +:+ "}" +:+ t1 +:+ t2 in
  (∀ j, j < String.length before →
        String.prefix sentinel_prefix (Str.drop j c) = false) →
  Forall (λ a, a ≠ Re.newline) (chars inner) →
  Forall (λ a, a ≠ Re.newline ∧ a ≠ "}"%char) (chars t1) →
  match t2 with
  | String a _ => a = Re.newline
  | EmptyString => True
  end →
  sentinel_payload (ToolMessage c n i) = Some ("{" +:+ inner +:+ "}").
Proof.
  intros c Hfree Hinner Ht1 Ht2. subst c. cbn [sentinel_payload].
  unfold Re.search_group1, reservation_pattern.
  rewrite search_skip by done.
  assert (Hm : Re.match_
                 (Re.lit sentinel_prefix
                  ++ [Re.GroupOpen; Re.One (Re.Chr "{"); Re.Star Re.Dot;
                      Re.One (Re.Chr "}"); Re.GroupClose])
                 (sentinel_prefix +:+ "{" +:+ inner +:+ "}" +:+ t1 +:+ t2)
               = Some (S (S (43 + String.length inner)),
                       (Some 43, Some (S (S (43 + String.length inner)))))).
  { unfold Re.match_. rewrite run_lit_match.
    change (0 + String.length sentinel_prefix) with 43.
    rewrite run_group_open.
    change ("{" +:+ inner +:+ "}" +:+ t1 +:+ t2)
      with (String "{" (inner +:+ String "}" (t1 +:+ t2))).
    rewrite run_one_unfold. unfold Re.accepts at 1.
    rewrite bool_decide_eq_true_2 by done.
    apply run_greedy_last_brace; [done..|].
    rewrite run_group_close. cbn [Re.run fst snd]. do 3 f_equal; lia. }
  destruct (sentinel_prefix +:+ "{" +:+ inner +:+ "}" +:+ t1 +:+ t2)
    as [|a s] eqn:Hs; [done|].
  cbn [Re.search]. rewrite Hm. unfold Re.group1. cbn [snd]. f_equal.
  rewrite <- Hs.
  change (Str.drop 43 (sentinel_prefix +:+ ?x)) with x.
  replace (S (S (43 + String.length inner)) - 43)
    with (String.length ("{" +:+ inner +:+ "}")).
  - rewrite <- (str_take_app ("{" +:+ inner +:+ "}") (t1 +:+ t2)) at 2.
    f_equal. by rewrite !str_app_assoc.
  - rewrite !str_length_app. cbn [String.length]. lia.
Qed.

(** ** The further properties on concrete requests *)

Lemma run_agent_new_messages_witness :
  ∃ result,
    run_agent (Sample.replying_agent "Hi!") "hello" [user_message_dict "hello"]
      ∅ (Sample.empty_tools (J := SimpleJSON.py))
    = (inr result,
       set_conversation_context [user_message_dict "hello"] Sample.empty_tools)
    ∧ (∀ added,
         [HumanMessage "hello"; AIMessage "Hi!"]
         = to_lc_messages (trim_history [user_message_dict "hello"]) ++ added →
         new_messages result = _serialize_message <$> added)
    ∧ (length [HumanMessage "hello"; AIMessage "Hi!"]
       ≤ length (to_lc_messages (trim_history [user_message_dict "hello"])) →
       new_messages result = []).
Proof.
  apply (run_agent_new_messages (J := SimpleJSON.py)
           (Sample.replying_agent "Hi!") "hello" [user_message_dict "hello"]
           ∅ Sample.empty_tools
           (set_conversation_context [user_message_dict "hello"]
              Sample.empty_tools)
           [HumanMessage "hello"; AIMessage "Hi!"]).
  reflexivity.
Defined.

Lemma reachable_transcript_turns_witness :
  let s := session_of
             (serve (chat (Some (Sample.replying_agent "Hi!"))
                       {| message := Some "hello" |})
                (new_session (J := SimpleJSON.py)) Sample.empty_tools) in
  ∃ turns,
    default [] (messages s) = transcript_of turns
    ∧ Forall (λ turn, turn.1 ≠ "") turns
    ∧ length (default [] (messages s)) = 2 * length turns
    ∧ Forall (λ msg, role msg = "user" ∨ role msg = "assistant")
        (default [] (messages s)).
Proof.
  intros s. apply (reachable_transcript_turns (J := SimpleJSON.py) s).
  apply reachable_serve; constructor.
Defined.

Lemma reachable_reservation_ids_distinct_witness :
  default [] (reservations Scenario.twice_booked_session)
  = [Sample.r1; Sample.r2]
  ∧ py_eq (SimpleJSON.JStr "r1" : @pyval SimpleJSON.py) (SimpleJSON.JStr "r2")
    = false.
Proof.
  split; [reflexivity|].
  apply (reachable_reservation_ids_distinct (J := SimpleJSON.py)
           Scenario.twice_booked_session
           [SimpleJSON.JStr "r1"; SimpleJSON.JStr "r2"] 0 1).
  - apply reachable_serve; [|constructor].
    apply reachable_serve; constructor.
  - reflexivity.
  - lia.
  - reflexivity.
  - reflexivity.
Defined.

Lemma availability_survives_turns_witness :
  get_tool_context "availability"
    (restore_tool_context
       (updated_tool_context
          (Scenario.booking_result (Sample.reservation_text "r2")))
       (set_conversation_context [] Sample.empty_tools))
  = Some Sample.seven_pm.
Proof.
  refine (availability_survives_turns (J := SimpleJSON.py)
            (Sample.booking_agent (Sample.reservation_text "r2") Sample.seven_pm)
            "Book it" (Sample.transcript 2 ++ [user_message_dict "Book it"])
            {[ "availability" := Some Sample.seven_pm ]} Sample.empty_tools
            (set_tool_context "last_search" Sample.seven_pm
               (set_tool_context "availability" Sample.seven_pm
                  (restore_tool_context
                     {[ "availability" := Some Sample.seven_pm ]}
                     (set_conversation_context
                        (Sample.transcript 2 ++ [user_message_dict "Book it"])
                        Sample.empty_tools))))
            (Scenario.booking_result (Sample.reservation_text "r2"))
            [] Sample.empty_tools _).
  reflexivity.
Defined.

Lemma chat_agent_failure_witness :
  let r := serve (chat (Some Scenario.failing_agent) {| message := Some "hello" |})
             Sample.booked_session Sample.empty_tools in
  response_of r = {| status := 500; body := ErrorOccurred AgentError |}
  ∧ session_of r = Sample.booked_session
  ∧ r.2 = restore_tool_context {[ "availability" := Some Sample.seven_pm ]}
            (set_conversation_context
               (Sample.transcript 2 ++ [user_message_dict "hello"])
               Sample.empty_tools).
Proof.
  apply (chat_agent_failure (J := SimpleJSON.py) Scenario.failing_agent
           {| message := Some "hello" |} Sample.booked_session
           Sample.empty_tools).
  - vm_compute. discriminate.
  - reflexivity.
Defined.

Lemma chat_without_valid_payload_witness :
  let agent := Sample.booking_agent Scenario.malformed_payload Sample.seven_pm in
  let r := serve (chat (Some agent) Scenario.book_it)
             Sample.booked_session Sample.empty_tools in
  response_of r
  = {| status := 200; body := ChatReply "Your table is booked." [Sample.r1] |}
  ∧ session_of r
    = {| messages :=
           Some ((Sample.transcript 2 ++ [user_message_dict "Book it"])
                 ++ [assistant_message_dict "Your table is booked."]);
         reservations := Some [Sample.r1];
         tool_context := Some {[ "availability" := Some Sample.seven_pm ]} |}.
Proof.
  intros agent.
  eapply (chat_without_valid_payload (J := SimpleJSON.py) agent
            Scenario.book_it Sample.booked_session Sample.empty_tools _
            (Scenario.booking_result Scenario.malformed_payload)).
  - vm_compute. discriminate.
  - reflexivity.
  - right. exists Scenario.malformed_payload. split; reflexivity.
Defined.

Lemma chat_books_reservation_witness :
  let agent := Sample.booking_agent (Sample.reservation_text "r2") Sample.seven_pm in
  let r := serve (chat (Some agent) Scenario.book_it)
             Sample.booked_session Sample.empty_tools in
  response_of r
  = {| status := 200;
       body := ChatReply "Your table is booked." [Sample.r1; Sample.r2] |}
  ∧ default [] (reservations (session_of r)) = [Sample.r1; Sample.r2]
  ∧ messages (session_of r)
    = Some ((Sample.transcript 2 ++ [user_message_dict "Book it"])
            ++ [assistant_message_dict "Your table is booked."]).
Proof.
  intros agent.
  eapply (chat_books_reservation (J := SimpleJSON.py) agent
            Scenario.book_it Sample.booked_session Sample.empty_tools _
            (Scenario.booking_result (Sample.reservation_text "r2"))
            (Sample.reservation_text "r2") Sample.r2 (SimpleJSON.JStr "r2")
            [SimpleJSON.JStr "r1"]).
  - vm_compute. discriminate.
  - reflexivity.
  - reflexivity.
  - reflexivity.
  - reflexivity.
  - reflexivity.
Defined.

(** The second reply holds a payload with an object inside: the lazy
    star stops at the brace that closes the inner object, and the brace
    that closes the payload stays in the reply. *)
Lemma scrub_removes_sentinel_line_witness :
  scrub (Scenario.confirmed_text
         +:+ sentinel_line 2 Scenario.payload_body 1 +:+ "")
  = Scenario.confirmed_text +:+ scrub ""
  ∧ scrub (Scenario.confirmed_text
           +:+ sentinel_line 2 Scenario.open_nested_body 0 +:+ "}")
    = Scenario.confirmed_text +:+ scrub "}".
Proof.
  split.
  - apply (scrub_removes_sentinel_line Scenario.confirmed_text
             Scenario.payload_body "" 2 1).
    + repeat (constructor; [by split|]). constructor.
    + vm_compute. discriminate.
    + exact I.
    + intros j Hj.
      do 21 (destruct j as [|j]; [reflexivity|]).
      cbn in Hj. lia.
  - apply (scrub_removes_sentinel_line Scenario.confirmed_text
             Scenario.open_nested_body "}" 2 0).
    + repeat (constructor; [by split|]). constructor.
    + vm_compute. discriminate.
    + done.
    + intros j Hj.
      do 21 (destruct j as [|j]; [reflexivity|]).
      cbn in Hj. lia.
Defined.

Lemma extract_reservation_shape_witness :
  ∃ c n i before body after,
    ToolMessage c n i ∈ Sample.two_bookings
    ∧ c = before +:+ sentinel_prefix +:+ Sample.reservation_text "r2" +:+ after
    ∧ Sample.reservation_text "r2" = "{" +:+ body +:+ "}"
    ∧ Forall (λ a, a ≠ Re.newline) (chars body).
Proof.
  apply (extract_reservation_shape Sample.two_bookings
           (Sample.reservation_text "r2")).
  reflexivity.
Defined.

Lemma sentinel_payload_to_last_brace_witness :
  sentinel_payload
    (ToolMessage
       ("Reservation confirmed. " +:+ sentinel_prefix +:+ "{"
        +:+ Scenario.nested_body +:+ "}" +:+ " Enjoy."
        +:+ String Re.newline "See you.")
       "make_reservation_tool" "call_1")
  = Some ("{" +:+ Scenario.nested_body +:+ "}").
Proof.
  apply (sentinel_payload_to_last_brace "Reservation confirmed. "
           Scenario.nested_body " Enjoy." (String Re.newline "See you.")
           "make_reservation_tool" "call_1").
  - intros j Hj.
    do 23 (destruct j as [|j]; [reflexivity|]).
    cbn in Hj. lia.
  - repeat (constructor; [done|]). constructor.
  - repeat (constructor; [by split|]). constructor.
  - reflexivity.
Defined.
